(** * QuizApp: the quiz session engine of [src/app/(tabs)/index.tsx]

    The component [QuizApp] keeps eleven React state cells, one subscription
    to the remote value ["quiz"], one countdown effect and the handlers of
    the three screens.  The development below embeds

    - the state cells as the record [State];
    - every [setTimeout] callback of [handleAnswerSelect] as a [Pending]
      closure that remembers the render it was created in (a React handler
      reads the state of its own render, not the state at the time it runs);
    - the remote ["scores"] list and the console as fields of [World];
    - each handler, the subscription callback and the timer effect as a
      function on [World].

    Numbers of the source are JavaScript numbers holding small integers;
    they are modelled in [Z].  No array or object is ever updated in place
    by the component ([setAnswers] receives a fresh array, [setAllQuizData]
    a fresh object), so arrays and objects are modelled as values. *)

From Stdlib Require Import ZArith List String Bool Lia.
Import ListNotations.

#[local] Open Scope string_scope.
#[local] Open Scope list_scope.
#[local] Open Scope Z_scope.

(** ** Data *)

(** [Question] of [constants/QuizData]: the text, the options and the index
    of the right option. *)
Record Question : Type := mkQuestion {
  question : string;
  options : list string;
  correct : Z
}.

(** [Record<string, Question[]>]: a JavaScript object used as a map.  The
    association list is kept in the object's own-key enumeration order, which
    is what [Object.keys] returns. *)
Definition Bank : Type := list (string * list Question).

Definition Object_keys (data : Bank) : list string := map fst data.

(** [data[category]] for a name that is one of the object's own keys or no
    property at all: the value stored under the key, [None] for
    [undefined].  Names inherited from [Object.prototype] are not modelled;
    the component only ever asks for names taken from [Object.keys]. *)
Fixpoint lookup (data : Bank) (category : string) : option (list Question) :=
  match data with
  | [] => None
  | (k, qs) :: rest => if String.eqb k category then Some qs else lookup rest category
  end.

(** [snapshot.val()] for the key ["quiz"], by the shape the handler tests:
    [null] when nothing is stored, an array (the categoryless legacy shape),
    or an object from category to questions. *)
Inductive Payload : Type :=
| Absent
| Legacy (items : list Question)
| Mapping (data : Bank).

(** The entry pushed under ["scores"]. *)
Module ScoreRecord.
Record t : Type := mk {
  category : option string;
  score : Z;
  totalQuestions : Z;
  date : string
}.
End ScoreRecord.

(** The [useState] cells of [QuizApp], under their source names. *)
Record State : Type := mkState {
  allQuizData : option Bank;
  categories : list string;
  selectedCategory : option string;
  quizData : list Question;
  loading : bool;
  currentQuestionIndex : Z;
  answers : list Z;
  score : Z;
  isQuizCompleted : bool;
  timeLeft : Z;
  selectedIndex : option Z
}.

(** The state setters. *)
Definition setAllQuizData (v : option Bank) (s : State) : State :=
  mkState v (categories s) (selectedCategory s) (quizData s) (loading s)
          (currentQuestionIndex s) (answers s) (score s) (isQuizCompleted s)
          (timeLeft s) (selectedIndex s).

Definition setCategories (v : list string) (s : State) : State :=
  mkState (allQuizData s) v (selectedCategory s) (quizData s) (loading s)
          (currentQuestionIndex s) (answers s) (score s) (isQuizCompleted s)
          (timeLeft s) (selectedIndex s).

Definition setSelectedCategory (v : option string) (s : State) : State :=
  mkState (allQuizData s) (categories s) v (quizData s) (loading s)
          (currentQuestionIndex s) (answers s) (score s) (isQuizCompleted s)
          (timeLeft s) (selectedIndex s).

Definition setQuizData (v : list Question) (s : State) : State :=
  mkState (allQuizData s) (categories s) (selectedCategory s) v (loading s)
          (currentQuestionIndex s) (answers s) (score s) (isQuizCompleted s)
          (timeLeft s) (selectedIndex s).

Definition setCurrentQuestionIndex (v : Z) (s : State) : State :=
  mkState (allQuizData s) (categories s) (selectedCategory s) (quizData s)
          (loading s) v (answers s) (score s) (isQuizCompleted s)
          (timeLeft s) (selectedIndex s).

Definition setAnswers (v : list Z) (s : State) : State :=
  mkState (allQuizData s) (categories s) (selectedCategory s) (quizData s)
          (loading s) (currentQuestionIndex s) v (score s) (isQuizCompleted s)
          (timeLeft s) (selectedIndex s).

Definition setScore (v : Z) (s : State) : State :=
  mkState (allQuizData s) (categories s) (selectedCategory s) (quizData s)
          (loading s) (currentQuestionIndex s) (answers s) v (isQuizCompleted s)
          (timeLeft s) (selectedIndex s).

Definition setIsQuizCompleted (v : bool) (s : State) : State :=
  mkState (allQuizData s) (categories s) (selectedCategory s) (quizData s)
          (loading s) (currentQuestionIndex s) (answers s) (score s) v
          (timeLeft s) (selectedIndex s).

Definition setTimeLeft (v : Z) (s : State) : State :=
  mkState (allQuizData s) (categories s) (selectedCategory s) (quizData s)
          (loading s) (currentQuestionIndex s) (answers s) (score s)
          (isQuizCompleted s) v (selectedIndex s).

Definition setSelectedIndex (v : option Z) (s : State) : State :=
  mkState (allQuizData s) (categories s) (selectedCategory s) (quizData s)
          (loading s) (currentQuestionIndex s) (answers s) (score s)
          (isQuizCompleted s) (timeLeft s) v.

(** A callback waiting in [setTimeout(..., 500)]: the option passed to
    [handleAnswerSelect] and the render whose [answers], [score],
    [quizData], [currentQuestionIndex] and [selectedCategory] the arrow
    function closed over. *)
Record Pending : Type := mkPending {
  index : Z;
  render : State
}.

(** The component together with what it talks to: the callbacks not yet
    run (oldest first; they all wait the same 500 ms, so they run in the
    order they were scheduled), the entries pushed under ["scores"] (oldest
    first) and the lines written by [console.log]. *)
Record World : Type := mkWorld {
  ui : State;
  timeouts : list Pending;
  scores : list ScoreRecord.t;
  console : list string
}.

Definition setUi (f : State -> State) (w : World) : World :=
  mkWorld (f (ui w)) (timeouts w) (scores w) (console w).

(** ** JavaScript helpers *)

(** Truthiness of a [string | null]: [null] and the empty string are
    falsy. *)
Definition truthy (v : option string) : bool :=
  match v with
  | None => false
  | Some s => negb (String.eqb s "")
  end.

(** [xs[i]] for a number [i] holding an integer: [undefined] out of range. *)
Definition at_index {A : Type} (xs : list A) (i : Z) : option A :=
  if i <? 0 then None else nth_error xs (Z.to_nat i).

(** [a === b] on values that are a number or [undefined] (an array read
    out of range, or [?.] on a missing question). *)
Definition strict_eq (a b : option Z) : bool :=
  match a, b with
  | Some x, Some y => x =? y
  | None, None => true
  | _, _ => false
  end.

(** [xs.forEach((x, idx) => ...)] with the effect of the body on the
    enclosing [let] variable threaded as an accumulator. *)
Fixpoint forEach {A V : Type} (body : A -> nat -> V -> V) (xs : list A)
         (idx : nat) (acc : V) : V :=
  match xs with
  | [] => acc
  | x :: rest => forEach body rest (S idx) (body x idx acc)
  end.

(** ** Handlers *)

(** [restartQuiz] (lines 103-110). *)
Definition restartQuiz (s : State) : State :=
  setSelectedIndex None
    (setTimeLeft 10
      (setIsQuizCompleted false
        (setScore 0
          (setAnswers []
            (setCurrentQuestionIndex 0 s))))).

(** [handleCategorySelect] (lines 63-69).  An array is truthy even when
    empty, so the guard holds exactly when the key is present (the names
    the category screen offers come from [Object.keys], so an inherited
    property is never asked for). *)
Definition handleCategorySelect (category : string) (w : World) : World :=
  match allQuizData (ui w) with
  | Some data =>
      match lookup data category with
      | Some qs =>
          setUi (fun s => restartQuiz
                            (setQuizData qs
                              (setSelectedCategory (Some category) s))) w
      | None => w
      end
  | None => w
  end.

(** [handleBackToCategories] (lines 72-76). *)
Definition handleBackToCategories (w : World) : World :=
  setUi (fun s => restartQuiz (setQuizData [] (setSelectedCategory None s))) w.

(** The subscription callback of the first effect (lines 35-48). *)
Definition onValue (data : Payload) (w : World) : World :=
  match data with
  | Absent => w
  | Legacy _ =>
      mkWorld (ui w) (timeouts w) (scores w)
        (console w ++
         ["Legacy data found in Firebase. Using local categorized data instead."])
  | Mapping m =>
      setUi (fun s => setCategories (Object_keys m) (setAllQuizData (Some m) s)) w
  end.

(** The score loop of [saveScoreToFirebase] (lines 124-127). *)
Definition finalScore (quiz : list Question) (finalAnswers : list Z) : Z :=
  forEach (fun q idx acc =>
             if strict_eq (nth_error finalAnswers idx) (Some (correct q))
             then acc + 1 else acc)
          quiz 0%nat 0.

(** [saveScoreToFirebase] (lines 114-138), called from the render [r] at
    the instant [now]: the pushed entry and the state update. *)
Definition saveScoreToFirebase (now : string) (r : State) (finalAnswers : list Z)
  : ScoreRecord.t * (State -> State) :=
  let fs := finalScore (quizData r) finalAnswers in
  (ScoreRecord.mk (selectedCategory r) fs (Z.of_nat (List.length (quizData r))) now,
   setScore fs).

(** The body of the delayed callback of [handleAnswerSelect] (lines 83-97)
    for the closure [p]: the state updates it requests, applied to the
    current state [s], and the entry it pushes, if any. *)
Definition settle (now : string) (p : Pending) (s : State)
  : State * option ScoreRecord.t :=
  let r := render p in
  let newAnswers := answers r ++ [index p] in
  let s1 := setAnswers newAnswers s in
  let s2 :=
    if strict_eq (Some (index p))
                 (option_map correct (at_index (quizData r) (currentQuestionIndex r)))
    then setScore (score r + 1) s1 else s1 in
  if currentQuestionIndex r <? Z.of_nat (List.length (quizData r)) - 1 then
    (setSelectedIndex None
       (setTimeLeft 10
          (setCurrentQuestionIndex (currentQuestionIndex r + 1) s2)),
     None)
  else
    let '(rec, upd) := saveScoreToFirebase now r newAnswers in
    (upd (setIsQuizCompleted true s2), Some rec).

(** [handleAnswerSelect] up to its [setTimeout] (lines 80-82): the option is
    highlighted and the callback is queued. *)
Definition handleAnswerSelect (i : Z) (w : World) : World :=
  mkWorld (setSelectedIndex (Some i) (ui w))
          (timeouts w ++ [mkPending i (ui w)])
          (scores w) (console w).

(** The oldest queued callback runs, 500 ms after it was scheduled. *)
Definition fire (now : string) (w : World) : World :=
  match timeouts w with
  | [] => w
  | p :: rest =>
      let '(s', pushed) := settle now p (ui w) in
      mkWorld s' rest
              (match pushed with Some r => scores w ++ [r] | None => scores w end)
              (console w)
  end.

(** The timer effect (lines 53-60) as it runs after a render in which one of
    its dependencies changed: its second branch. *)
Definition timerExpired (s : State) : bool :=
  truthy (selectedCategory s) && (timeLeft s =? 0) && negb (isQuizCompleted s).

Definition timerRunning (s : State) : bool :=
  truthy (selectedCategory s) && (0 <? timeLeft s) && negb (isQuizCompleted s).

(** One second passes: the [setTimeout] of the first branch, when one is
    live, lowers [timeLeft]; the effect then runs again and, at zero, calls
    [handleAnswerSelect(-1)]. *)
Definition tick (w : World) : World :=
  if timerRunning (ui w) then
    let w' := setUi (setTimeLeft (timeLeft (ui w) - 1)) w in
    if timerExpired (ui w') then handleAnswerSelect (-1) w' else w'
  else w.

(** ** What is rendered *)

(** The number [score / quizData.length * 100] of the completion screen, as
    [toFixed(0)] prints it.  Both operands are integers; a zero divisor gives
    [NaN] for [0 / 0] and an infinity otherwise, which [* 100] and [toFixed]
    hand through as the texts ["NaN"], ["Infinity"] and ["-Infinity"].  A
    finite quotient is kept as the pair it was computed from. *)
Inductive Percentage : Type :=
| PctNaN
| PctInfinity
| PctNegInfinity
| PctFinite (num den : Z).

Definition percentage (sc len : Z) : Percentage :=
  if len =? 0 then
    if sc =? 0 then PctNaN
    else if 0 <? sc then PctInfinity else PctNegInfinity
  else PctFinite sc len.

(** The four [return]s of the component (lines 142-291), with the state each
    one shows. *)
Inductive Screen : Type :=
| LoadingScreen
| CategoryScreen (shown : list string)
| CompletedScreen (category : option string) (sc total : Z) (pct : Percentage)
| QuestionScreen (category : option string) (currentQuestion : option Question)
                 (position total left : Z) (selected : option Z).

Definition screen (s : State) : Screen :=
  if loading s then LoadingScreen
  else if negb (truthy (selectedCategory s)) then CategoryScreen (categories s)
  else if isQuizCompleted s then
    CompletedScreen (selectedCategory s) (score s)
                    (Z.of_nat (List.length (quizData s)))
                    (percentage (score s) (Z.of_nat (List.length (quizData s))))
  else
    QuestionScreen (selectedCategory s)
                   (at_index (quizData s) (currentQuestionIndex s))
                   (currentQuestionIndex s + 1)
                   (Z.of_nat (List.length (quizData s)))
                   (timeLeft s) (selectedIndex s).

(** ** The component as a transition system *)

(** The state of the first render; [QuizData] is the bundled bank of
    [constants/QuizData]. *)
Definition initialState (QuizData : Bank) : State :=
  mkState (Some QuizData) (Object_keys QuizData) None [] false 0 [] 0 false 10 None.

Definition initialWorld (QuizData : Bank) : World :=
  mkWorld (initialState QuizData) [] [] [].

(** Everything that can happen to the mounted component. *)
Inductive Event : Type :=
| RemoteValue (data : Payload)
| PressCategory (category : string)
| PressBack
| PressOption (i : Z)
| PressRestart
| Second
| HalfSecond (now : string).

Definition step (w : World) (e : Event) : World :=
  match e with
  | RemoteValue data => onValue data w
  | PressCategory category => handleCategorySelect category w
  | PressBack => handleBackToCategories w
  | PressOption i => handleAnswerSelect i w
  | PressRestart => setUi restartQuiz w
  | Second => tick w
  | HalfSecond now => fire now w
  end.

Definition run (es : list Event) (w : World) : World := fold_left step es w.

(** Which presses the rendered screen offers: a category button per listed
    category, the option buttons of the current question, "Back" on the
    question screen, "Restart Quiz" and "Choose Another Subject" on the
    completion screen.  The other events come from outside. *)
Definition offered (s : State) (e : Event) : bool :=
  match e, screen s with
  | PressCategory c, CategoryScreen shown => existsb (String.eqb c) shown
  | PressOption i, QuestionScreen _ (Some q) _ _ _ _ =>
      (0 <=? i) && (i <? Z.of_nat (List.length (options q)))
  | PressBack, QuestionScreen _ _ _ _ _ _ => true
  | PressBack, CompletedScreen _ _ _ _ => true
  | PressRestart, CompletedScreen _ _ _ _ => true
  | (PressCategory _ | PressOption _ | PressBack | PressRestart), _ => false
  | (RemoteValue _ | Second | HalfSecond _), _ => true
  end.

Fixpoint feasible (es : list Event) (w : World) : bool :=
  match es with
  | [] => true
  | e :: rest => offered (ui w) e && feasible rest (step w e)
  end.

(** ** The score as the specification words it *)

(** The number of positions [i] of the question list at which an answer is
    recorded and equals [questions[i].correct]. *)
Definition matches (questions : list Question) (given : list Z) (i : nat) : bool :=
  match nth_error given i, nth_error questions i with
  | Some a, Some q => a =? correct q
  | _, _ => false
  end.

Definition count_matching (questions : list Question) (given : list Z) : Z :=
  Z.of_nat
    (List.length (filter (matches questions given) (seq 0 (List.length questions)))).

(** One question of a session as the user lives it: some seconds pass and an
    option is pressed, or the countdown runs out; half a second later the
    queued callback runs. *)
Inductive Reply : Type :=
| Pick (wait : nat) (i : Z) (now : string)
| Expire (now : string).

Definition reply_events (r : Reply) : list Event :=
  match r with
  | Pick wait i now => repeat Second wait ++ [PressOption i; HalfSecond now]
  | Expire now => repeat Second 10 ++ [HalfSecond now]
  end.

Definition in_time (r : Reply) : Prop :=
  match r with
  | Pick wait _ _ => (wait < 10)%nat
  | Expire _ => True
  end.

Definition session_events (category : string) (rs : list Reply) : list Event :=
  PressCategory category :: flat_map reply_events rs.

(** The fields of [State] that make up the running session. *)
Definition session (s : State)
  : option string * list Question * Z * list Z * Z * bool * Z * option Z :=
  (selectedCategory s, quizData s, currentQuestionIndex s, answers s, score s,
   isQuizCompleted s, timeLeft s, selectedIndex s).

(** ** Sample data *)

Definition q_stack : Question :=
  mkQuestion "Which structure is LIFO?" ["Queue"; "Stack"; "Tree"; "Graph"] 1.

Definition q_sort : Question :=
  mkQuestion "Which sort is stable?" ["Merge"; "Quick"; "Heap"; "Selection"] 0.

Definition sampleBank : Bank :=
  [("Algorithms", [q_stack; q_sort]); ("General", [q_stack]); ("Empty", [])].

(** ** Vocabulary of the statements *)

(** The component shows question [n] of the session on the questions [qs] of
    category [c], with a full clock and nothing queued. *)
Definition in_question (c : string) (qs : list Question) (n : nat) (w : World)
  : Prop :=
  selectedCategory (ui w) = Some c /\
  quizData (ui w) = qs /\
  currentQuestionIndex (ui w) = Z.of_nat n /\
  List.length (answers (ui w)) = n /\
  isQuizCompleted (ui w) = false /\
  timeLeft (ui w) = 10 /\
  timeouts w = [].

(** The events that call [handleAnswerSelect] or may do so: a press on an
    option, and a second of the countdown. *)
Definition is_call (e : Event) : Prop :=
  match e with
  | PressOption _ | Second => True
  | _ => False
  end.

(** The argument with which an event calls [handleAnswerSelect] in the
    world [w], if it calls it: a press on option [i] calls it with [i]
    (line 279); the second that takes a live clock from one to zero makes
    the timer effect call it with [-1] (lines 57-58). *)
Definition call_of (w : World) (e : Event) : list Z :=
  match e with
  | PressOption i => [i]
  | Second =>
      if timerRunning (ui w) && (timeLeft (ui w) =? 1) then [-1] else []
  | _ => []
  end.

(** The calls of [handleAnswerSelect] made along a run, in order. *)
Fixpoint calls_made (es : list Event) (w : World) : list Z :=
  match es with
  | [] => []
  | e :: rest => call_of w e ++ calls_made rest (step w e)
  end.

(** Two closures that agree on the option and on the session fields of the
    render they captured. *)
Definition same_pending (p1 p2 : Pending) : Prop :=
  index p1 = index p2 /\ session (render p1) = session (render p2).

(** Two worlds that differ at most in the bank, the category list and the
    console, now and in every captured render. *)
Definition same_session (w1 w2 : World) : Prop :=
  session (ui w1) = session (ui w2) /\
  Forall2 same_pending (timeouts w1) (timeouts w2) /\
  scores w1 = scores w2.

(** The one event that reads the bank. *)
Definition reads_bank (e : Event) : Prop :=
  match e with
  | PressCategory _ => True
  | _ => False
  end.

(** ** Styling helpers and further vocabulary *)

(** [getCategoryIcon] (lines 152-161). *)
Definition getCategoryIcon (category : string) : string :=
  if String.eqb category "Data Structures" then "layers"
  else if String.eqb category "Algorithms" then "code-working"
  else if String.eqb category "Operating Systems" then "hardware-chip"
  else if String.eqb category "Database Systems" then "server"
  else if String.eqb category "Computer Networks" then "cloud"
  else "book".

(** [getCategoryColor] (lines 163-172). *)
Definition getCategoryColor (category : string) : string :=
  if String.eqb category "Data Structures" then "#FF6B6B"
  else if String.eqb category "Algorithms" then "#4ECDC4"
  else if String.eqb category "Operating Systems" then "#45B7D1"
  else if String.eqb category "Database Systems" then "#FFA07A"
  else if String.eqb category "Computer Networks" then "#9D50BB"
  else "#6200ea".

(** The categories the two [switch] statements have a case for. *)
Definition styled_categories : list string :=
  ["Data Structures"; "Algorithms"; "Operating Systems"; "Database Systems";
   "Computer Networks"].

(** The last object among a sequence of payloads, if there is one. *)
Fixpoint last_mapping (ps : list Payload) (found : option Bank) : option Bank :=
  match ps with
  | [] => found
  | Mapping m :: rest => last_mapping rest (Some m)
  | _ :: rest => last_mapping rest found
  end.

(** The presses that leave or reset a session. *)
Definition is_navigation (e : Event) : Prop :=
  match e with
  | PressBack | PressRestart | PressCategory _ => True
  | _ => False
  end.

(** The category list is the key list of the bank in use. *)
Definition categories_listed (s : State) : Prop :=
  exists bank, allQuizData s = Some bank /\ categories s = Object_keys bank.

(** Question [n] is on screen, nothing is highlighted, and the running score
    is the number of right answers recorded so far. *)
Definition at_question (c : string) (qs : list Question) (n : nat) (w : World)
  : Prop :=
  in_question c qs n w /\
  selectedIndex (ui w) = None /\
  score (ui w) = count_matching qs (answers (ui w)).

(** ** Sample worlds *)

Definition w_algorithms : World :=
  run [PressCategory "Algorithms"] (initialWorld sampleBank).

Definition w_general_pressed : World :=
  run [PressCategory "General"; PressOption 1] (initialWorld sampleBank).

Definition w_algorithms_pressed : World :=
  run [PressCategory "Algorithms"; PressOption 1] (initialWorld sampleBank).

(** * Properties *)

(** ** Bookkeeping *)

Lemma run_app (es1 es2 : list Event) (w : World) :
  run (es1 ++ es2) w = run es2 (run es1 w).
Proof. unfold run. apply fold_left_app. Qed.

Lemma run_cons (e : Event) (es : list Event) (w : World) :
  run (e :: es) w = run es (step w e).
Proof. reflexivity. Qed.

Lemma lookup_of_key (data : Bank) (c : string) :
  In c (Object_keys data) -> exists qs, lookup data c = Some qs /\ In (c, qs) data.
Proof.
  induction data as [| [k qs] rest IH]; simpl; [tauto |].
  intros Hin. destruct (String.eqb k c) eqn:E.
  - apply String.eqb_eq in E. subst k. exists qs. auto.
  - destruct Hin as [-> | Hin]; [rewrite String.eqb_refl in E; discriminate |].
    destruct (IH Hin) as (qs' & Hl & Hi). exists qs'. auto.
Qed.

(** ** The score loop *)

Section ScoreLoop.

Variable given : list Z.

(** The loop, started in the middle of the list with [seen] behind it,
    adds to the accumulator the hits among the positions still ahead. *)
Lemma forEach_counts (ahead seen : list Question) (acc : Z) :
  forEach (fun q idx acc =>
             if strict_eq (nth_error given idx) (Some (correct q))
             then acc + 1 else acc)
          ahead (List.length seen) acc =
  acc + Z.of_nat (List.length (filter (matches (seen ++ ahead) given)
                                      (seq (List.length seen) (List.length ahead)))).
Proof.
  revert seen acc.
  induction ahead as [| q ahead IH]; intros seen acc; simpl.
  - lia.
  - specialize (IH (seen ++ [q])
                   (if strict_eq (nth_error given (List.length seen))
                                 (Some (correct q))
                    then acc + 1 else acc)).
    rewrite length_app, Nat.add_1_r, <- app_assoc in IH. simpl in IH.
    rewrite IH. clear IH.
    unfold matches at 2. rewrite nth_error_app2, Nat.sub_diag by lia. simpl.
    unfold strict_eq.
    destruct (nth_error given (List.length seen)) as [a |]; [| reflexivity].
    destruct (a =? correct q); simpl; lia.
Qed.

Lemma finalScore_count_matching (questions : list Question) :
  finalScore questions given = count_matching questions given.
Proof.
  exact (forEach_counts questions [] 0).
Qed.

Lemma count_matching_bounds (questions : list Question) :
  0 <= count_matching questions given <= Z.of_nat (List.length questions).
Proof.
  unfold count_matching. split; [lia |].
  apply inj_le.
  etransitivity; [apply filter_length_le |].
  rewrite length_seq. reflexivity.
Qed.

End ScoreLoop.

(** ** The delayed callback *)

(** The callback in its last-question branch. *)
Lemma settle_last (now : string) (p : Pending) (s : State) :
  ~ currentQuestionIndex (render p) < Z.of_nat (List.length (quizData (render p))) - 1 ->
  settle now p s =
  (mkState (allQuizData s) (categories s) (selectedCategory s) (quizData s)
           (loading s) (currentQuestionIndex s) (answers (render p) ++ [index p])
           (finalScore (quizData (render p)) (answers (render p) ++ [index p]))
           true (timeLeft s) (selectedIndex s),
   Some (ScoreRecord.mk (selectedCategory (render p))
           (finalScore (quizData (render p)) (answers (render p) ++ [index p]))
           (Z.of_nat (List.length (quizData (render p)))) now)).
Proof.
  intros Hlast. unfold settle.
  apply Z.ltb_nlt in Hlast. rewrite Hlast.
  unfold saveScoreToFirebase. cbv zeta.
  destruct (strict_eq (Some (index p)) _); reflexivity.
Qed.

(** The callback in its advancing branch. *)
Lemma settle_next (now : string) (p : Pending) (s : State) :
  currentQuestionIndex (render p) < Z.of_nat (List.length (quizData (render p))) - 1 ->
  exists sc,
    settle now p s =
    (mkState (allQuizData s) (categories s) (selectedCategory s) (quizData s)
             (loading s) (currentQuestionIndex (render p) + 1)
             (answers (render p) ++ [index p]) sc
             (isQuizCompleted s) 10 None,
     None).
Proof.
  intros Hnext. unfold settle.
  apply Z.ltb_lt in Hnext. rewrite Hnext. cbv zeta.
  destruct (strict_eq (Some (index p)) _); eexists; reflexivity.
Qed.

(** Whatever the branch, the callback leaves the captured answers followed
    by its own option. *)
Lemma settle_answers (now : string) (p : Pending) (s : State) :
  answers (fst (settle now p s)) = answers (render p) ++ [index p].
Proof.
  destruct (Z.lt_ge_cases (currentQuestionIndex (render p))
              (Z.of_nat (List.length (quizData (render p))) - 1)) as [H | H].
  - destruct (settle_next now p s H) as (sc & ->). reflexivity.
  - rewrite settle_last by lia. reflexivity.
Qed.

Lemma fire_cons (now : string) (w : World) (p : Pending) (rest : list Pending) :
  timeouts w = p :: rest ->
  fire now w =
  mkWorld (fst (settle now p (ui w))) rest
          (match snd (settle now p (ui w)) with
           | Some r => scores w ++ [r]
           | None => scores w
           end)
          (console w).
Proof.
  intros H. unfold fire. rewrite H.
  destruct (settle now p (ui w)) as [s' pushed]. reflexivity.
Qed.

(** ** Final scoring *)

(** C1. When the delayed callback of the last question runs, the session is
    marked completed and the score is recomputed from the answers just
    recorded: it is the number of positions [i] with
    [answers[i] = questions[i].correct].  That number is the [score] of the
    entry pushed under ["scores"] and the [score] the completion screen
    reads, and neither the [score] captured by the callback nor the
    [score] currently in the state has any influence on the outcome. *)
Theorem final_score_is_recount
        (now : string) (w : World) (p : Pending) (rest : list Pending) :
  timeouts w = p :: rest ->
  ~ currentQuestionIndex (render p) < Z.of_nat (List.length (quizData (render p))) - 1 ->
  let w' := fire now w in
  let final := count_matching (quizData (render p)) (answers (ui w')) in
  isQuizCompleted (ui w') = true /\
  answers (ui w') = answers (render p) ++ [index p] /\
  score (ui w') = final /\
  (exists rec, scores w' = scores w ++ [rec] /\ ScoreRecord.score rec = final) /\
  (forall v v' : Z,
      fire now (mkWorld (setScore v' (ui w))
                        (mkPending (index p) (setScore v (render p)) :: rest)
                        (scores w) (console w)) = w').
Proof.
  intros Hq Hlast w' final. subst w' final.
  rewrite (fire_cons now w p rest Hq).
  rewrite (settle_last now p (ui w) Hlast). simpl.
  rewrite <- finalScore_count_matching.
  repeat split.
  - eexists. split; reflexivity.
  - intros v v'.
    erewrite fire_cons by reflexivity.
    rewrite settle_last by exact Hlast. reflexivity.
Qed.

Lemma final_score_is_recount_witness :
  timeouts w_general_pressed =
    [mkPending 1 (ui (run [PressCategory "General"] (initialWorld sampleBank)))] /\
  score (ui (fire "2026-01-01T00:00:00.000Z" w_general_pressed)) = 1.
Proof.
  split; [reflexivity |].
  destruct (final_score_is_recount
              "2026-01-01T00:00:00.000Z" w_general_pressed
              (mkPending 1 (ui (run [PressCategory "General"] (initialWorld sampleBank))))
              [] eq_refl) as (_ & _ & Hscore & _).
  - intros Hlt. vm_compute in Hlt. discriminate Hlt.
  - exact Hscore.
Defined.

(** Every event but the delayed callback leaves ["scores"] alone. *)
Ltac quiet_step w :=
  left; simpl;
  unfold onValue, handleCategorySelect, tick;
  repeat match goal with
         | |- context [match ?d with Absent => _ | _ => _ end] => destruct d
         | |- context [allQuizData (ui w)] => destruct (allQuizData (ui w))
         | |- context [lookup ?d ?c] => destruct (lookup d c)
         | |- context [timerRunning ?s] => destruct (timerRunning s)
         | |- context [timerExpired ?s] => destruct (timerExpired s)
         end;
  reflexivity.

(** C10. A step of the component either pushes nothing under ["scores"] or
    pushes one entry, and then it is the oldest queued callback that ran:
    the entry carries the category and the number of questions of the
    render in which that answer was given, and a score between zero and
    that number of questions. *)
Theorem score_record_consistent (w : World) (e : Event) :
  scores (step w e) = scores w \/
  exists (p : Pending) (rest : list Pending) (rec : ScoreRecord.t),
    timeouts w = p :: rest /\
    scores (step w e) = scores w ++ [rec] /\
    ScoreRecord.category rec = selectedCategory (render p) /\
    ScoreRecord.totalQuestions rec = Z.of_nat (List.length (quizData (render p))) /\
    0 <= ScoreRecord.score rec <= ScoreRecord.totalQuestions rec.
Proof.
  destruct e as [data | c | | i | | | now]; try solve [quiet_step w].
  change (step w (HalfSecond now)) with (fire now w).
  destruct (timeouts w) as [| p rest] eqn:Hq.
  - left. unfold fire. rewrite Hq. reflexivity.
  - rewrite (fire_cons now w p rest Hq).
    destruct (Z.lt_ge_cases (currentQuestionIndex (render p))
                (Z.of_nat (List.length (quizData (render p))) - 1)) as [H | H].
    + destruct (settle_next now p (ui w) H) as (sc & ->). auto.
    + right. exists p, rest. eexists.
      rewrite settle_last by lia. simpl.
      repeat split; try reflexivity;
        rewrite finalScore_count_matching; apply count_matching_bounds.
Qed.

(** Along any run, the scores pushed stay within their totals. *)
Lemma published_scores_bounded (es : list Event) (w : World) :
  Forall (fun rec => 0 <= ScoreRecord.score rec <= ScoreRecord.totalQuestions rec)
         (scores w) ->
  Forall (fun rec => 0 <= ScoreRecord.score rec <= ScoreRecord.totalQuestions rec)
         (scores (run es w)).
Proof.
  revert w. induction es as [| e es IH]; intros w Hw; [exact Hw |].
  rewrite run_cons. apply IH.
  assert (Hstep : scores (step w e) = scores w \/
                  exists rec, scores (step w e) = scores w ++ [rec] /\
                    0 <= ScoreRecord.score rec <= ScoreRecord.totalQuestions rec).
  { destruct e as [data | c | | i | | | now]; try solve [quiet_step w].
    change (step w (HalfSecond now)) with (fire now w).
    destruct (timeouts w) as [| p rest] eqn:Hq.
    - left. unfold fire. rewrite Hq. reflexivity.
    - rewrite (fire_cons now w p rest Hq).
      destruct (Z.lt_ge_cases (currentQuestionIndex (render p))
                  (Z.of_nat (List.length (quizData (render p))) - 1)) as [H | H].
      + destruct (settle_next now p (ui w) H) as (sc & ->). auto.
      + right. eexists. rewrite settle_last by lia. simpl.
        split; [reflexivity |].
        rewrite finalScore_count_matching. apply count_matching_bounds. }
  destruct Hstep as [-> | (rec & -> & Hrec)]; [exact Hw |].
  apply Forall_app. split; [exact Hw | constructor; [exact Hrec | constructor]].
Qed.

(** A call made on an empty queue, followed by its callback. *)
Lemma fire_call (now : string) (i : Z) (w : World) :
  timeouts w = [] ->
  fire now (handleAnswerSelect i w) =
  mkWorld (fst (settle now (mkPending i (ui w)) (setSelectedIndex (Some i) (ui w))))
          []
          (match snd (settle now (mkPending i (ui w))
                             (setSelectedIndex (Some i) (ui w))) with
           | Some r => scores w ++ [r]
           | None => scores w
           end)
          (console w).
Proof.
  intros Hq. erewrite fire_cons by (simpl; rewrite Hq; reflexivity). reflexivity.
Qed.

(** ** The remote bank *)

(** C4. A payload that is an array is rejected: the state of the component,
    hence its bank and its category list, the queued callbacks and the
    pushed scores are what they were; only a diagnostic line is logged.
    Started on the bank [{"General": qs}], the categories are still
    [["General"]] afterwards. *)
Theorem legacy_payload_rejected (items qs : list Question) (w : World) :
  ui (onValue (Legacy items) w) = ui w /\
  timeouts (onValue (Legacy items) w) = timeouts w /\
  scores (onValue (Legacy items) w) = scores w /\
  console (onValue (Legacy items) w) <> console w /\
  allQuizData (ui (onValue (Legacy items) (initialWorld [("General", qs)]))) =
    Some [("General", qs)] /\
  categories (ui (onValue (Legacy items) (initialWorld [("General", qs)]))) =
    ["General"].
Proof.
  repeat split; simpl.
  intros H. apply (f_equal (@List.length string)) in H.
  rewrite length_app in H. simpl in H. lia.
Qed.

(** C5. A payload that is an object becomes the bank as it is, whatever the
    bank was before, and the category list becomes its keys in their
    enumeration order; selecting one of those keys afterwards starts a
    session on the question list the payload stores under it. *)
Theorem mapping_payload_adopted (m : Bank) (w : World) :
  let w' := onValue (Mapping m) w in
  allQuizData (ui w') = Some m /\
  categories (ui w') = Object_keys m /\
  forall c : string,
    In c (categories (ui w')) ->
    exists qs,
      lookup m c = Some qs /\ In (c, qs) m /\
      selectedCategory (ui (handleCategorySelect c w')) = Some c /\
      quizData (ui (handleCategorySelect c w')) = qs.
Proof.
  simpl. repeat split.
  intros c Hc. destruct (lookup_of_key m c Hc) as (qs & Hl & Hi).
  exists qs. unfold handleCategorySelect. simpl. rewrite Hl. auto.
Qed.

Lemma mapping_payload_adopted_witness :
  In "Math" (categories (ui (onValue (Mapping [("Math", [q_stack; q_sort])])
                                     (initialWorld sampleBank)))) /\
  categories (ui (onValue (Mapping [("Math", [q_stack; q_sort])])
                          (initialWorld sampleBank))) = ["Math"] /\
  exists qs,
    lookup [("Math", [q_stack; q_sort])] "Math" = Some qs /\
    quizData (ui (handleCategorySelect "Math"
                    (onValue (Mapping [("Math", [q_stack; q_sort])])
                             (initialWorld sampleBank)))) = qs.
Proof.
  split; [simpl; auto |].
  destruct (mapping_payload_adopted [("Math", [q_stack; q_sort])]
                                    (initialWorld sampleBank)) as (_ & Hk & Hsel).
  split; [exact Hk |].
  destruct (Hsel "Math" (or_introl eq_refl)) as (qs & Hl & _ & _ & Hq).
  exists qs. split; assumption.
Defined.

(** ** Restart *)

(** C8. "Restart Quiz" puts the cursor and the score back to zero, empties
    the answers, clears the completion flag, sets ten seconds on the clock
    and clears the highlighted option; the selected category, the
    session's questions, the bank and the category list stay as they
    were. *)
Theorem restart_resets_session (w : World) :
  let w' := step w PressRestart in
  currentQuestionIndex (ui w') = 0 /\
  score (ui w') = 0 /\
  answers (ui w') = [] /\
  isQuizCompleted (ui w') = false /\
  timeLeft (ui w') = 10 /\
  selectedIndex (ui w') = None /\
  selectedCategory (ui w') = selectedCategory (ui w) /\
  quizData (ui w') = quizData (ui w) /\
  allQuizData (ui w') = allQuizData (ui w) /\
  categories (ui w') = categories (ui w).
Proof. simpl. repeat split. Qed.

(** ** The countdown *)

Lemma setTimeLeft_same (w : World) :
  setUi (setTimeLeft (timeLeft (ui w))) w = w.
Proof. destruct w as [[] ? ? ?]. reflexivity. Qed.

Lemma setTimeLeft_twice (a b : Z) (w : World) :
  setUi (setTimeLeft b) (setUi (setTimeLeft a) w) = setUi (setTimeLeft b) w.
Proof. reflexivity. Qed.

(** A second that does not bring the clock to zero only lowers it. *)
Lemma tick_counts_down (w : World) :
  truthy (selectedCategory (ui w)) = true ->
  isQuizCompleted (ui w) = false ->
  1 < timeLeft (ui w) ->
  tick w = setUi (setTimeLeft (timeLeft (ui w) - 1)) w.
Proof.
  intros Hc Hd Ht. unfold tick, timerRunning, timerExpired. simpl.
  rewrite Hc, Hd. simpl.
  replace (0 <? timeLeft (ui w)) with true by (symmetry; apply Z.ltb_lt; lia).
  replace (timeLeft (ui w) - 1 =? 0) with false by (symmetry; apply Z.eqb_neq; lia).
  reflexivity.
Qed.

(** The second that brings the clock to zero calls [handleAnswerSelect(-1)]. *)
Lemma tick_expires (w : World) :
  truthy (selectedCategory (ui w)) = true ->
  isQuizCompleted (ui w) = false ->
  timeLeft (ui w) = 1 ->
  tick w = handleAnswerSelect (-1) (setUi (setTimeLeft 0) w).
Proof.
  intros Hc Hd Ht. unfold tick, timerRunning, timerExpired. simpl.
  rewrite Hc, Hd, Ht. reflexivity.
Qed.

Lemma seconds_count_down (k : nat) (w : World) :
  truthy (selectedCategory (ui w)) = true ->
  isQuizCompleted (ui w) = false ->
  Z.of_nat k < timeLeft (ui w) ->
  run (repeat Second k) w = setUi (setTimeLeft (timeLeft (ui w) - Z.of_nat k)) w.
Proof.
  revert w. induction k as [| k IH]; intros w Hc Hd Ht.
  - simpl. rewrite Z.sub_0_r. symmetry. apply setTimeLeft_same.
  - simpl repeat. rewrite run_cons. simpl step.
    rewrite tick_counts_down by (assumption || lia).
    rewrite IH by (simpl; assumption || lia).
    rewrite setTimeLeft_twice. simpl. do 2 f_equal. lia.
Qed.

Lemma seconds_expire (k : nat) (w : World) :
  truthy (selectedCategory (ui w)) = true ->
  isQuizCompleted (ui w) = false ->
  timeLeft (ui w) = Z.of_nat (S k) ->
  run (repeat Second (S k)) w = handleAnswerSelect (-1) (setUi (setTimeLeft 0) w).
Proof.
  intros Hc Hd Ht.
  replace (S k) with (k + 1)%nat by lia.
  rewrite repeat_app, run_app.
  rewrite (seconds_count_down k w) by (assumption || lia).
  simpl repeat. rewrite run_cons. simpl run. simpl step.
  rewrite tick_expires by (simpl; assumption || lia).
  reflexivity.
Qed.

(** ** Several calls for one question *)

(** Presses and seconds leave [answers] alone, and every callback they
    queue has captured that same [answers]. *)
Lemma calls_capture_answers (es : list Event) (w : World) :
  Forall is_call es ->
  Forall (fun p => answers (render p) = answers (ui w)) (timeouts w) ->
  answers (ui (run es w)) = answers (ui w) /\
  Forall (fun p => answers (render p) = answers (ui w)) (timeouts (run es w)).
Proof.
  revert w. induction es as [| e es IH]; intros w Hes Hq; [auto |].
  inversion Hes as [| ? ? He Hes']; subst.
  rewrite run_cons.
  assert (Hstep : answers (ui (step w e)) = answers (ui w) /\
                  Forall (fun p => answers (render p) = answers (ui w))
                         (timeouts (step w e))).
  { destruct e; try contradiction; simpl.
    - split; [reflexivity |].
      apply Forall_app. split; [exact Hq | repeat constructor].
    - unfold tick. destruct (timerRunning (ui w)); [| auto].
      destruct (timerExpired _); simpl; [| auto].
      split; [reflexivity |].
      apply Forall_app. split; [exact Hq | repeat constructor]. }
  destruct Hstep as [Ha Hq'].
  destruct (IH (step w e) Hes') as [H1 H2].
  { rewrite Ha. exact Hq'. }
  rewrite Ha in H1, H2. auto.
Qed.

(** Running a queue of callbacks that all captured the same answers leaves
    those answers followed by the option of the last callback. *)
Lemma callbacks_overwrite (given : list Z) (d : Pending) (ps : list Pending) :
  forall (w : World) (nows : list string),
    timeouts w = ps ->
    ps <> [] ->
    List.length nows = List.length ps ->
    Forall (fun p => answers (render p) = given) ps ->
    answers (ui (run (map HalfSecond nows) w)) = given ++ [index (last ps d)] /\
    timeouts (run (map HalfSecond nows) w) = [].
Proof.
  induction ps as [| p ps IH]; intros w nows Hq Hne Hlen Hcap; [congruence |].
  destruct nows as [| now nows]; [discriminate |].
  simpl map. rewrite run_cons. simpl step.
  rewrite (fire_cons now w p ps Hq).
  inversion Hcap as [| ? ? Hp Hps]; subst.
  destruct ps as [| p' ps'].
  - destruct nows; [| discriminate]. simpl.
    rewrite settle_answers. auto.
  - apply IH; simpl in *; try congruence; try lia; assumption.
Qed.

(** Every call is queued: the options of the queued callbacks are the
    options of the calls made, in the order of the calls. *)
Lemma step_queues_call (w : World) (e : Event) :
  is_call e ->
  map index (timeouts (step w e)) = map index (timeouts w) ++ call_of w e.
Proof.
  destruct e as [| | | i | | |]; try contradiction; intros _; simpl.
  - rewrite map_app. reflexivity.
  - unfold tick, timerRunning, timerExpired. simpl.
    destruct (truthy (selectedCategory (ui w))); simpl;
      [| rewrite app_nil_r; reflexivity].
    destruct (0 <? timeLeft (ui w)); simpl;
      [| rewrite app_nil_r; reflexivity].
    destruct (negb (isQuizCompleted (ui w))); simpl;
      [| rewrite app_nil_r; reflexivity].
    replace (timeLeft (ui w) - 1 =? 0) with (timeLeft (ui w) =? 1)
      by (destruct (Z.eqb_spec (timeLeft (ui w)) 1);
          destruct (Z.eqb_spec (timeLeft (ui w) - 1) 0); lia || reflexivity).
    destruct (timeLeft (ui w) =? 1); simpl.
    + rewrite map_app. reflexivity.
    + rewrite app_nil_r. reflexivity.
Qed.

Lemma run_queues_calls (es : list Event) (w : World) :
  Forall is_call es ->
  map index (timeouts (run es w)) = map index (timeouts w) ++ calls_made es w.
Proof.
  revert w. induction es as [| e es IH]; intros w Hes.
  - simpl. rewrite app_nil_r. reflexivity.
  - inversion Hes as [| ? ? He Hes']; subst.
    rewrite run_cons, (IH (step w e) Hes'), (step_queues_call w e He).
    simpl calls_made. rewrite app_assoc. reflexivity.
Qed.

(** The presses alone: each one is a call. *)
Lemma calls_made_presses (options : list Z) (w : World) :
  calls_made (map PressOption options) w = options.
Proof.
  revert w. induction options as [| i options IH]; intros w; [reflexivity |].
  simpl. rewrite IH. reflexivity.
Qed.

(** A press in the last second followed by the end of the countdown: two
    calls, the press and then the timeout. *)
Lemma calls_made_press_then_expiry :
  calls_made (repeat Second 9 ++ [PressOption 0; Second]) w_algorithms = [0; -1].
Proof. reflexivity. Qed.

Lemma index_last (ps : list Pending) (d : Pending) :
  index (last ps d) = last (map index ps) (index d).
Proof.
  induction ps as [| p ps IH]; [reflexivity |].
  destruct ps as [| p' ps']; [reflexivity |].
  exact IH.
Qed.

(** C2, amended.  Calls of [handleAnswerSelect] for one question made
    before its first delayed callback runs, by pressing options or by the
    countdown running out, are never ignored: every one of them is queued,
    in the order of the calls, with the answers of the moment of the call.
    Once the queued callbacks have run, [answers] holds exactly one more
    entry than before the calls, and that entry is the option of the last
    call made. *)
Theorem one_entry_last_call_wins
        (w : World) (calls : list Event) (nows : list string) :
  timeouts w = [] ->
  Forall is_call calls ->
  calls_made calls w <> [] ->
  List.length nows = List.length (calls_made calls w) ->
  let queued := run calls w in
  let w' := run (map HalfSecond nows) queued in
  map index (timeouts queued) = calls_made calls w /\
  Forall (fun p => answers (render p) = answers (ui w)) (timeouts queued) /\
  answers (ui queued) = answers (ui w) /\
  answers (ui w') = answers (ui w) ++ [last (calls_made calls w) 0] /\
  List.length (answers (ui w')) = S (List.length (answers (ui w))) /\
  timeouts w' = [].
Proof.
  intros Hq Hcalls Hne Hlen queued w'. subst w' queued.
  pose proof (run_queues_calls calls w Hcalls) as Hqueue.
  rewrite Hq in Hqueue. simpl in Hqueue.
  destruct (calls_capture_answers calls w Hcalls) as [Hkeep Hcap].
  { rewrite Hq. constructor. }
  assert (Hne' : timeouts (run calls w) <> []).
  { intros Hnil. rewrite Hnil in Hqueue. simpl in Hqueue. congruence. }
  assert (Hlen' : List.length nows = List.length (timeouts (run calls w))).
  { rewrite Hlen, <- Hqueue, length_map. reflexivity. }
  destruct (callbacks_overwrite (answers (ui w)) (mkPending 0 (ui w))
              (timeouts (run calls w)) (run calls w) nows eq_refl Hne' Hlen' Hcap)
    as [Ha Hq'].
  rewrite index_last, Hqueue in Ha. simpl index in Ha.
  rewrite Ha, length_app. simpl.
  repeat split; try assumption. lia.
Qed.

Lemma one_entry_last_call_wins_witness :
  timeouts w_algorithms = [] /\
  Forall is_call [PressOption 0; PressOption 1] /\
  calls_made [PressOption 0; PressOption 1] w_algorithms <> [] /\
  map index (timeouts (run [PressOption 0; PressOption 1] w_algorithms)) = [0; 1] /\
  answers (ui (run (map HalfSecond ["t1"; "t2"])
                   (run [PressOption 0; PressOption 1] w_algorithms))) = [1].
Proof.
  assert (Hcalls : Forall is_call [PressOption 0; PressOption 1])
    by (repeat constructor).
  assert (Hne : calls_made [PressOption 0; PressOption 1] w_algorithms <> [])
    by (simpl; discriminate).
  split; [reflexivity |].
  split; [exact Hcalls |].
  split; [exact Hne |].
  destruct (one_entry_last_call_wins
              w_algorithms [PressOption 0; PressOption 1] ["t1"; "t2"]
              eq_refl Hcalls Hne eq_refl)
    as (Hqueue & _ & _ & Ha & _).
  split; [exact Hqueue | exact Ha].
Defined.

(** C2, as stated, fails.  On the first question of "Algorithms"
    the user presses option 0 and then option 1 within the half second:
    both presses are offered by the screen, the second press changes the
    world, and after both callbacks have run the recorded answer is 1, where
    the first press alone records 0.  Likewise a countdown that runs out
    during the half second after a press replaces the pressed option by
    -1. *)
Lemma second_call_not_ignored :
  feasible [PressCategory "Algorithms"; PressOption 0; PressOption 1]
           (initialWorld sampleBank) = true /\
  step (step w_algorithms (PressOption 0)) (PressOption 1)
    <> step w_algorithms (PressOption 0) /\
  answers (ui (run [PressOption 0; HalfSecond "t1"] w_algorithms)) = [0] /\
  answers (ui (run [PressOption 0; PressOption 1; HalfSecond "t1"; HalfSecond "t2"]
                   w_algorithms)) = [1] /\
  answers (ui (run (repeat Second 9 ++
                    [PressOption 0; Second; HalfSecond "t1"; HalfSecond "t2"])
                   w_algorithms)) = [-1].
Proof.
  repeat split; try reflexivity.
  intros H. apply (f_equal (fun v => selectedIndex (ui v))) in H.
  vm_compute in H. discriminate H.
Qed.

(** ** An empty question list *)

(** C3.  The bank holds a category with no question.  The user selects it
    (the screen offers the button), the question screen shows no option, the
    countdown runs out and the callback completes the session.  The
    completion screen then shows a score of 0 out of 0 with the percentage
    text "NaN": nothing turns [0 / 0] into 0. *)
Lemma empty_category_shows_NaN :
  feasible (session_events "Empty" [Expire "t"]) (initialWorld sampleBank) = true /\
  screen (ui (run (session_events "Empty" [Expire "t"]) (initialWorld sampleBank))) =
    CompletedScreen (Some "Empty") 0 0 PctNaN /\
  answers (ui (run (session_events "Empty" [Expire "t"]) (initialWorld sampleBank))) =
    [-1].
Proof. repeat split; reflexivity. Qed.

(** ** A whole session *)

Lemma truthy_named (c : string) : c <> "" -> truthy (Some c) = true.
Proof.
  intros Hc. simpl. destruct (String.eqb c "") eqn:E; [| reflexivity].
  apply String.eqb_eq in E. contradiction.
Qed.

Section Session.

Variable c : string.
Variable qs : list Question.
Hypothesis c_named : c <> "".

Lemma select_starts (bank : Bank) (w : World) :
  timeouts w = [] ->
  allQuizData (ui w) = Some bank ->
  lookup bank c = Some qs ->
  in_question c qs 0 (handleCategorySelect c w).
Proof.
  intros Hq Hb Hl. unfold handleCategorySelect. rewrite Hb, Hl.
  unfold in_question. simpl. auto 10.
Qed.

(** A reply in time amounts to one call of [handleAnswerSelect], at some
    value of the clock, and the run of its callback. *)
Lemma reply_is_one_call (r : Reply) (n : nat) (w : World) :
  in_question c qs n w ->
  in_time r ->
  exists (now : string) (i t : Z),
    run (reply_events r) w =
    fire now (handleAnswerSelect i (setUi (setTimeLeft t) w)).
Proof.
  intros (Hc & _ & _ & _ & Hd & Ht & _) Hr.
  assert (Htr : truthy (selectedCategory (ui w)) = true)
    by (rewrite Hc; apply truthy_named, c_named).
  destruct r as [wait i now | now]; simpl in Hr; unfold reply_events.
  - exists now, i, (timeLeft (ui w) - Z.of_nat wait).
    rewrite run_app, (seconds_count_down wait w) by (assumption || lia).
    reflexivity.
  - exists now, (-1), 0.
    rewrite run_app, (seconds_expire 9 w) by (assumption || lia).
    reflexivity.
Qed.

Lemma call_advances (now : string) (i t : Z) (n : nat) (w : World) :
  in_question c qs n w ->
  (S n < List.length qs)%nat ->
  in_question c qs (S n) (fire now (handleAnswerSelect i (setUi (setTimeLeft t) w))).
Proof.
  intros (Hc & Hqs & Hi & Ha & Hd & _ & Hq) Hn.
  set (v := setUi (setTimeLeft t) w).
  rewrite (fire_call now i v Hq).
  destruct (settle_next now (mkPending i (ui v))
              (setSelectedIndex (Some i) (ui v))) as (sc & ->).
  { subst v. simpl. rewrite Hi, Hqs. lia. }
  unfold in_question. subst v. simpl.
  rewrite length_app, Hi, Ha. simpl.
  repeat split; auto; lia.
Qed.

Lemma call_completes (now : string) (i t : Z) (n : nat) (w : World) :
  in_question c qs n w ->
  S n = List.length qs ->
  let w' := fire now (handleAnswerSelect i (setUi (setTimeLeft t) w)) in
  isQuizCompleted (ui w') = true /\
  List.length (answers (ui w')) = List.length (quizData (ui w')) /\
  quizData (ui w') = qs /\
  selectedCategory (ui w') = Some c /\
  score (ui w') = count_matching qs (answers (ui w')) /\
  scores w' =
    scores w ++
    [ScoreRecord.mk (Some c) (count_matching qs (answers (ui w')))
                    (Z.of_nat (List.length qs)) now].
Proof.
  intros (Hc & Hqs & Hi & Ha & Hd & _ & Hq) Hn w'. subst w'.
  set (v := setUi (setTimeLeft t) w).
  rewrite (fire_call now i v Hq).
  rewrite settle_last by (subst v; simpl; rewrite Hi, Hqs; lia).
  subst v. simpl.
  rewrite length_app, Ha, Hqs, Hc, finalScore_count_matching. simpl.
  repeat split; auto; lia.
Qed.

Lemma replies_complete (rs : list Reply) :
  forall (n : nat) (w : World),
    in_question c qs n w ->
    Forall in_time rs ->
    rs <> [] ->
    (n + List.length rs = List.length qs)%nat ->
    let w' := run (flat_map reply_events rs) w in
    isQuizCompleted (ui w') = true /\
    List.length (answers (ui w')) = List.length (quizData (ui w')) /\
    quizData (ui w') = qs /\
    score (ui w') = count_matching qs (answers (ui w')).
Proof.
  induction rs as [| r rs IH]; intros n w Hw Hrs Hne Hlen; [congruence |].
  inversion Hrs as [| ? ? Hr Hrs']; subst.
  simpl flat_map. cbv zeta. rewrite run_app.
  destruct (reply_is_one_call r n w Hw Hr) as (now & i & t & ->).
  destruct rs as [| r' rs'].
  - simpl in Hlen. simpl flat_map. simpl run.
    destruct (call_completes now i t n w Hw) as (H1 & H2 & H3 & _ & H5 & _);
      [lia | auto].
  - apply (IH (S n)); try assumption; try discriminate.
    + apply call_advances; [assumption | simpl in Hlen; lia].
    + simpl in *. lia.
Qed.

End Session.

(** C6. From a world with nothing queued, selecting a category of the bank
    that has a name and at least one question, and then replying to each of
    its questions in turn, by pressing any option before the ten seconds
    are over or by letting the countdown run out, ends with the completion
    flag set and as many recorded answers as the session has questions. *)
Theorem every_category_completes
        (w : World) (bank : Bank) (c : string) (qs : list Question)
        (rs : list Reply) :
  timeouts w = [] ->
  allQuizData (ui w) = Some bank ->
  lookup bank c = Some qs ->
  c <> "" ->
  qs <> [] ->
  List.length rs = List.length qs ->
  Forall in_time rs ->
  let w' := run (session_events c rs) w in
  isQuizCompleted (ui w') = true /\
  List.length (answers (ui w')) = List.length (quizData (ui w')) /\
  quizData (ui w') = qs.
Proof.
  intros Hq Hb Hl Hc Hqs Hlen Hrs w'. subst w'.
  unfold session_events. rewrite run_cons. simpl step.
  destruct (replies_complete c qs Hc rs 0 (handleCategorySelect c w))
    as (H1 & H2 & H3 & _); auto.
  - eapply select_starts; eassumption.
  - intros ->. destruct qs; [congruence | discriminate].
Qed.

Lemma every_category_completes_witness :
  lookup sampleBank "Algorithms" = Some [q_stack; q_sort] /\
  Forall in_time [Pick 3 2 "t1"; Expire "t2"] /\
  answers (ui (run (session_events "Algorithms" [Pick 3 2 "t1"; Expire "t2"])
                   (initialWorld sampleBank))) = [2; -1] /\
  isQuizCompleted
    (ui (run (session_events "Algorithms" [Pick 3 2 "t1"; Expire "t2"])
             (initialWorld sampleBank))) = true.
Proof.
  assert (Hrs : Forall in_time [Pick 3 2 "t1"; Expire "t2"])
    by (repeat constructor; simpl; lia).
  split; [reflexivity |].
  split; [exact Hrs |].
  split; [reflexivity |].
  destruct (every_category_completes
              (initialWorld sampleBank) sampleBank "Algorithms"
              [q_stack; q_sort] [Pick 3 2 "t1"; Expire "t2"]
              eq_refl eq_refl eq_refl) as (Hdone & _); try exact Hrs.
  - discriminate.
  - discriminate.
  - reflexivity.
  - exact Hdone.
Defined.

(** At the end of such a session the score on the completion screen is the
    recount over the session's own questions and answers. *)
Lemma completed_session_score
      (w : World) (bank : Bank) (c : string) (qs : list Question)
      (rs : list Reply) :
  timeouts w = [] ->
  allQuizData (ui w) = Some bank ->
  lookup bank c = Some qs ->
  c <> "" ->
  qs <> [] ->
  List.length rs = List.length qs ->
  Forall in_time rs ->
  let w' := run (session_events c rs) w in
  score (ui w') = count_matching (quizData (ui w')) (answers (ui w')).
Proof.
  intros Hq Hb Hl Hc Hqs Hlen Hrs w'. subst w'.
  unfold session_events. rewrite run_cons. simpl step.
  destruct (replies_complete c qs Hc rs 0 (handleCategorySelect c w))
    as (_ & _ & H3 & H4); auto.
  - eapply select_starts; eassumption.
  - intros ->. destruct qs; [congruence | discriminate].
  - rewrite H3. exact H4.
Qed.

(** ** The countdown as an answer *)

(** C7. Letting the countdown run from any positive value to zero is
    calling [handleAnswerSelect(-1)] with the clock at zero.  In a session
    of one question whose [correct] is a real option index, a countdown
    left to run out therefore completes the session exactly as that call
    does, with the answer -1 recorded, a final score of 0 and the entry
    [{category, score: 0, totalQuestions: 1}] pushed. *)
Theorem timeout_is_sentinel_answer :
  (forall (k : nat) (v : World),
      truthy (selectedCategory (ui v)) = true ->
      isQuizCompleted (ui v) = false ->
      timeLeft (ui v) = Z.of_nat (S k) ->
      run (repeat Second (S k)) v =
      step (setUi (setTimeLeft 0) v) (PressOption (-1))) /\
  (forall (w : World) (bank : Bank) (c : string) (q : Question) (now : string),
      timeouts w = [] ->
      allQuizData (ui w) = Some bank ->
      lookup bank c = Some [q] ->
      c <> "" ->
      0 <= correct q ->
      let w' := run (session_events c [Expire now]) w in
      w' = run [PressOption (-1); HalfSecond now]
               (setUi (setTimeLeft 0) (handleCategorySelect c w)) /\
      isQuizCompleted (ui w') = true /\
      answers (ui w') = [-1] /\
      score (ui w') = 0 /\
      scores w' = scores w ++ [ScoreRecord.mk (Some c) 0 1 now]).
Proof.
  split; [exact seconds_expire |].
  intros w bank c q now Hq Hb Hl Hc Hq0 w'. subst w'.
  unfold session_events. rewrite run_cons. simpl step.
  change (flat_map reply_events [Expire now])
    with (repeat Second 10 ++ [HalfSecond now]).
  rewrite run_app.
  pose proof (select_starts c [q] bank w Hq Hb Hl) as Hw.
  assert (Hrun : run (repeat Second 10) (handleCategorySelect c w) =
                 handleAnswerSelect (-1)
                   (setUi (setTimeLeft 0) (handleCategorySelect c w))).
  { destruct Hw as (Hsel & _ & _ & _ & Hd & Ht & _).
    apply (seconds_expire 9); [rewrite Hsel; apply truthy_named, Hc | | ];
      assumption. }
  rewrite Hrun. split; [reflexivity |].
  change (run [HalfSecond now] ?x) with (fire now x).
  destruct (call_completes c [q] now (-1) 0 0 (handleCategorySelect c w) Hw eq_refl)
    as (H1 & _ & _ & _ & H5 & H6).
  assert (Hans : answers (ui (fire now (handleAnswerSelect (-1)
                   (setUi (setTimeLeft 0) (handleCategorySelect c w))))) = [-1]).
  { destruct Hw as (_ & _ & _ & Ha & _ & _ & Hq').
    rewrite fire_call by exact Hq'. simpl ui.
    rewrite settle_answers. simpl.
    destruct (answers (ui (handleCategorySelect c w))); [reflexivity | discriminate]. }
  assert (Hzero : count_matching [q] [-1] = 0).
  { unfold count_matching, matches. cbn [List.length seq filter nth_error].
    replace (-1 =? correct q) with false by (symmetry; apply Z.eqb_neq; lia).
    reflexivity. }
  rewrite Hans in H5, H6. rewrite Hzero in H5, H6.
  assert (Hscores : scores (handleCategorySelect c w) = scores w).
  { unfold handleCategorySelect. rewrite Hb, Hl. reflexivity. }
  rewrite Hscores in H6. auto.
Qed.

Lemma timeout_is_sentinel_answer_witness :
  lookup sampleBank "General" = Some [q_stack] /\
  0 <= correct q_stack /\
  score (ui (run (session_events "General" [Expire "t"])
                 (initialWorld sampleBank))) = 0.
Proof.
  split; [reflexivity |].
  split; [simpl; lia |].
  destruct timeout_is_sentinel_answer as [_ Hsession].
  destruct (Hsession (initialWorld sampleBank) sampleBank "General" q_stack "t"
                     eq_refl eq_refl eq_refl) as (_ & _ & _ & Hscore & _).
  - discriminate.
  - simpl. lia.
  - exact Hscore.
Defined.

(** ** Bank updates during a session *)

Ltac session_fields H :=
  unfold session in H; injection H as ? ? ? ? ? ? ? ?; simpl in *; subst.

Lemma settle_same (now : string) (p1 p2 : Pending) (s1 s2 : State) :
  same_pending p1 p2 ->
  session s1 = session s2 ->
  session (fst (settle now p1 s1)) = session (fst (settle now p2 s2)) /\
  snd (settle now p1 s1) = snd (settle now p2 s2).
Proof.
  destruct p1 as [i1 [? ? ? ? ? ? ? ? ? ? ?]], p2 as [i2 [? ? ? ? ? ? ? ? ? ? ?]].
  destruct s1, s2. intros [Hi Hr] Hs. simpl in Hi. subst i2.
  session_fields Hr. session_fields Hs.
  unfold settle, saveScoreToFirebase. cbv zeta. cbn [render index].
  cbn [quizData currentQuestionIndex answers score selectedCategory].
  destruct (_ <? _); destruct (strict_eq _ _); auto.
Qed.

Lemma timer_same (s1 s2 : State) :
  session s1 = session s2 ->
  timerRunning s1 = timerRunning s2 /\
  (forall v, timerExpired (setTimeLeft v s1) = timerExpired (setTimeLeft v s2)) /\
  timeLeft s1 = timeLeft s2 /\
  (forall v, session (setTimeLeft v s1) = session (setTimeLeft v s2)) /\
  (forall v, session (setSelectedIndex v s1) = session (setSelectedIndex v s2)).
Proof.
  destruct s1, s2. intros Hs. session_fields Hs. auto.
Qed.

Lemma call_same (i : Z) (w1 w2 : World) :
  same_session w1 w2 ->
  same_session (handleAnswerSelect i w1) (handleAnswerSelect i w2).
Proof.
  intros (Hs & Hq & Hsc).
  destruct (timer_same _ _ Hs) as (_ & _ & _ & _ & Hsel).
  unfold same_session. simpl. repeat split; auto.
  apply Forall2_app; [exact Hq |].
  repeat constructor. exact Hs.
Qed.

Lemma step_same (e : Event) (w1 w2 : World) :
  ~ reads_bank e ->
  same_session w1 w2 ->
  same_session (step w1 e) (step w2 e).
Proof.
  intros He Hw. pose proof Hw as (Hs & Hq & Hsc).
  destruct e as [data | c | | i | | | now]; simpl in He |- *.
  - destruct data; unfold same_session; simpl; auto.
  - tauto.
  - unfold same_session. simpl. auto.
  - apply call_same, Hw.
  - unfold same_session. simpl. repeat split; auto.
    destruct (ui w1), (ui w2). session_fields Hs. reflexivity.
  - destruct (timer_same _ _ Hs) as (Hrun & Hexp & Ht & Hset & _).
    unfold tick. rewrite Hrun, Ht.
    destruct (timerRunning (ui w2)); [| exact Hw].
    simpl ui. rewrite Hexp.
    assert (Hw' : same_session (setUi (setTimeLeft (timeLeft (ui w2) - 1)) w1)
                               (setUi (setTimeLeft (timeLeft (ui w2) - 1)) w2)).
    { unfold same_session. simpl. auto. }
    destruct (timerExpired _); [apply call_same |]; exact Hw'.
  - unfold fire. inversion Hq as [| p1 p2 q1 q2 Hp Hq' E1 E2].
    + exact Hw.
    + destruct (settle_same now p1 p2 (ui w1) (ui w2) Hp Hs) as [H1 H2].
      destruct (settle now p1 (ui w1)) as [s1' r1].
      destruct (settle now p2 (ui w2)) as [s2' r2].
      simpl in H1, H2. subst r2.
      unfold same_session. simpl. repeat split; auto.
      destruct r1; congruence.
Qed.

Lemma run_same (es : list Event) :
  forall w1 w2 : World,
    Forall (fun e => ~ reads_bank e) es ->
    same_session w1 w2 ->
    same_session (run es w1) (run es w2).
Proof.
  induction es as [| e es IH]; intros w1 w2 Hes Hw; [exact Hw |].
  inversion Hes; subst. rewrite !run_cons.
  apply IH; [assumption | apply step_same; assumption].
Qed.

Lemma same_pending_refl (ps : list Pending) : Forall2 same_pending ps ps.
Proof. induction ps; constructor; [split; reflexivity | assumption]. Qed.

(** C9. The subscription callback, whatever it receives, leaves the session
    fields and the queued callbacks as they are: the questions copied at
    selection, the cursor, the answers, the score, the completion flag, the
    clock and the highlighted option.  And it has no delayed effect on
    them either: after any further events other than a new category
    selection, the session fields and the pushed scores are the same as if
    the update had not arrived. *)
Theorem bank_update_leaves_session (data : Payload) (w : World) (es : list Event) :
  Forall (fun e => ~ reads_bank e) es ->
  session (ui (onValue data w)) = session (ui w) /\
  timeouts (onValue data w) = timeouts w /\
  session (ui (run es (onValue data w))) = session (ui (run es w)) /\
  scores (run es (onValue data w)) = scores (run es w).
Proof.
  intros Hes.
  assert (Hnow : session (ui (onValue data w)) = session (ui w) /\
                 timeouts (onValue data w) = timeouts w /\
                 scores (onValue data w) = scores w).
  { destruct data; simpl; auto. }
  destruct Hnow as (Hs & Hq & Hsc).
  destruct (run_same es (onValue data w) w Hes) as (Hs' & _ & Hsc').
  { unfold same_session. rewrite Hq. auto using same_pending_refl. }
  auto.
Qed.

Lemma bank_update_leaves_session_witness :
  Forall (fun e => ~ reads_bank e) [HalfSecond "t1"; PressOption 0; HalfSecond "t2"] /\
  session (ui (run [HalfSecond "t1"; PressOption 0; HalfSecond "t2"]
                   (onValue (Mapping [("Math", [q_sort])]) w_algorithms_pressed))) =
  session (ui (run [HalfSecond "t1"; PressOption 0; HalfSecond "t2"]
                   w_algorithms_pressed)).
Proof.
  assert (Hes : Forall (fun e => ~ reads_bank e)
                       [HalfSecond "t1"; PressOption 0; HalfSecond "t2"])
    by (repeat constructor; simpl; tauto).
  split; [exact Hes |].
  destruct (bank_update_leaves_session
              (Mapping [("Math", [q_sort])]) w_algorithms_pressed
              [HalfSecond "t1"; PressOption 0; HalfSecond "t2"] Hes)
    as (_ & _ & Hsame & _).
  exact Hsame.
Defined.


(** * Further properties of the component *)

(** ** Selecting and leaving a category *)

(** X2. "Back" and "Choose Another Subject" bring up the category screen
    with the category list unchanged, drop the session's questions and reset
    cursor, answers, score, completion flag, clock and highlight; the bank,
    the queued callbacks and the pushed scores are untouched. *)
Theorem back_shows_categories (w : World) :
  loading (ui w) = false ->
  let w' := step w PressBack in
  screen (ui w') = CategoryScreen (categories (ui w)) /\
  session (ui w') = (None, [], 0, [], 0, false, 10, None) /\
  allQuizData (ui w') = allQuizData (ui w) /\
  timeouts w' = timeouts w /\
  scores w' = scores w.
Proof.
  intros Hl. simpl. unfold screen. simpl. rewrite Hl. auto.
Qed.

Lemma back_shows_categories_witness :
  loading (ui w_algorithms_pressed) = false /\
  screen (ui (step w_algorithms_pressed PressBack)) =
    CategoryScreen ["Algorithms"; "General"; "Empty"].
Proof.
  split; [reflexivity |].
  destruct (back_shows_categories w_algorithms_pressed eq_refl) as (Hscreen & _).
  exact Hscreen.
Defined.

(** The callback leaves the bank, the category list, the selection, the
    questions and the loading flag alone, and sets the clock to ten or
    leaves it. *)
Lemma settle_keeps (now : string) (p : Pending) (s : State) :
  allQuizData (fst (settle now p s)) = allQuizData s /\
  categories (fst (settle now p s)) = categories s /\
  selectedCategory (fst (settle now p s)) = selectedCategory s /\
  quizData (fst (settle now p s)) = quizData s /\
  loading (fst (settle now p s)) = loading s /\
  (timeLeft (fst (settle now p s)) = 10 \/
   timeLeft (fst (settle now p s)) = timeLeft s).
Proof.
  destruct (Z.lt_ge_cases (currentQuestionIndex (render p))
              (Z.of_nat (List.length (quizData (render p))) - 1)) as [H | H].
  - destruct (settle_next now p s H) as (sc & ->). simpl. auto 10.
  - rewrite settle_last by lia. simpl. auto 10.
Qed.

(** What no step does to the bank-side fields. *)
Lemma step_keeps_loading (w : World) (e : Event) :
  loading (ui (step w e)) = loading (ui w).
Proof.
  destruct e as [data | c | | i | | | now]; simpl; try reflexivity.
  - destruct data; reflexivity.
  - unfold handleCategorySelect.
    destruct (allQuizData (ui w)) as [data |]; [| reflexivity].
    destruct (lookup data c); reflexivity.
  - unfold tick. destruct (timerRunning (ui w)); [| reflexivity].
    destruct (timerExpired _); reflexivity.
  - destruct (timeouts w) as [| p rest] eqn:Hq.
    + unfold fire. rewrite Hq. reflexivity.
    + rewrite (fire_cons now w p rest Hq). simpl. apply settle_keeps.
Qed.

Lemma run_keeps_loading (es : list Event) (w : World) :
  loading (ui (run es w)) = loading (ui w).
Proof.
  revert w. induction es as [| e es IH]; intros w; [reflexivity |].
  rewrite run_cons, IH. apply step_keeps_loading.
Qed.

(** X3. The loading flag is never raised: whatever happens after the first
    render, the component never shows the loading screen. *)
Theorem never_loading (QuizData : Bank) (es : list Event) :
  loading (ui (run es (initialWorld QuizData))) = false /\
  screen (ui (run es (initialWorld QuizData))) <> LoadingScreen.
Proof.
  assert (Hl : loading (ui (run es (initialWorld QuizData))) = false)
    by (rewrite run_keeps_loading; reflexivity).
  split; [exact Hl |].
  unfold screen. rewrite Hl.
  destruct (negb _); [discriminate |].
  destruct (isQuizCompleted _); discriminate.
Qed.

(** X4. The clock stays between zero and ten: no sequence of events takes
    [timeLeft] below zero or above ten. *)
Theorem clock_stays_in_range (es : list Event) (w : World) :
  0 <= timeLeft (ui w) <= 10 ->
  0 <= timeLeft (ui (run es w)) <= 10.
Proof.
  revert w. induction es as [| e es IH]; intros w Hw; [exact Hw |].
  rewrite run_cons. apply IH.
  destruct e as [data | c | | i | | | now]; simpl.
  - destruct data; exact Hw.
  - unfold handleCategorySelect.
    destruct (allQuizData (ui w)) as [data |]; [| exact Hw].
    destruct (lookup data c); [simpl; lia | exact Hw].
  - lia.
  - exact Hw.
  - lia.
  - unfold tick, timerRunning.
    destruct (truthy (selectedCategory (ui w))); [| exact Hw].
    destruct (0 <? timeLeft (ui w)) eqn:Hpos; [| exact Hw].
    destruct (negb (isQuizCompleted (ui w))); [| exact Hw].
    apply Z.ltb_lt in Hpos. simpl.
    destruct (timerExpired _); simpl; lia.
  - destruct (timeouts w) as [| p rest] eqn:Hq.
    + unfold fire. rewrite Hq. exact Hw.
    + rewrite (fire_cons now w p rest Hq). simpl.
      destruct (settle_keeps now p (ui w)) as (_ & _ & _ & _ & _ & [Ht | Ht]);
        rewrite Ht; lia.
Qed.

Lemma clock_stays_in_range_witness :
  0 <= timeLeft (ui w_algorithms_pressed) <= 10 /\
  0 <= timeLeft (ui (run (repeat Second 25) w_algorithms_pressed)) <= 10.
Proof.
  assert (Hw : 0 <= timeLeft (ui w_algorithms_pressed) <= 10)
    by (simpl; lia).
  split; [exact Hw |].
  exact (clock_stays_in_range (repeat Second 25) w_algorithms_pressed Hw).
Defined.

(** X5. While no countdown is live (no category on screen, a completed
    session, or a clock already at zero), seconds pass without any effect:
    in particular a clock that reached zero queues its timeout once, not
    once per second. *)
Theorem idle_seconds_do_nothing (k : nat) (w : World) :
  timerRunning (ui w) = false ->
  run (repeat Second k) w = w.
Proof.
  intros Hidle. induction k as [| k IH]; [reflexivity |].
  simpl repeat. rewrite run_cons. simpl step.
  unfold tick. rewrite Hidle. exact IH.
Qed.

Lemma idle_seconds_do_nothing_witness :
  timerRunning (ui (run (repeat Second 10) w_algorithms)) = false /\
  timeouts (run (repeat Second 3) (run (repeat Second 10) w_algorithms)) =
    timeouts (run (repeat Second 10) w_algorithms).
Proof.
  split; [reflexivity |].
  rewrite (idle_seconds_do_nothing 3 (run (repeat Second 10) w_algorithms) eq_refl).
  reflexivity.
Defined.

(** ** Callbacks that outlive their question *)

(** X6. "Back", "Restart Quiz" and a category button do not cancel a queued
    callback: it stays first in the queue, and when it runs it writes the
    answers it had captured, followed by its option, over the answers that
    the press had just reset. *)
Theorem navigation_keeps_callbacks
        (w : World) (e : Event) (now : string) (p : Pending) (rest : list Pending) :
  is_navigation e ->
  timeouts w = p :: rest ->
  timeouts (step w e) = p :: rest /\
  timeouts (fire now (step w e)) = rest /\
  answers (ui (fire now (step w e))) = answers (render p) ++ [index p].
Proof.
  intros He Hq.
  assert (Hkeep : timeouts (step w e) = p :: rest).
  { destruct e; try contradiction; simpl; try exact Hq.
    unfold handleCategorySelect.
    destruct (allQuizData (ui w)) as [data |]; [| exact Hq].
    destruct (lookup data category); exact Hq. }
  split; [exact Hkeep |].
  rewrite (fire_cons now (step w e) p rest Hkeep). simpl.
  split; [reflexivity | apply settle_answers].
Qed.

Lemma navigation_keeps_callbacks_witness :
  is_navigation (PressCategory "General") /\
  timeouts (step w_algorithms_pressed PressBack) =
    [mkPending 1 (ui w_algorithms)] /\
  answers (ui (fire "t" (step (step w_algorithms_pressed PressBack)
                              (PressCategory "General")))) = [1].
Proof.
  split; [exact I |].
  split; [reflexivity |].
  destruct (navigation_keeps_callbacks
              (step w_algorithms_pressed PressBack) (PressCategory "General") "t"
              (mkPending 1 (ui w_algorithms)) [] I eq_refl) as (_ & _ & Ha).
  exact Ha.
Defined.

Lemma callback_frame_fields (now : string) (w : World) :
  allQuizData (ui (fire now w)) = allQuizData (ui w) /\
  categories (ui (fire now w)) = categories (ui w).
Proof.
  destruct (timeouts w) as [| p rest] eqn:Hq.
  - unfold fire. rewrite Hq. auto.
  - rewrite (fire_cons now w p rest Hq). simpl.
    destruct (settle_keeps now p (ui w)) as (H1 & H2 & _). auto.
Qed.

(** X7. The delayed callback never touches the bank, the category list, the
    selected category, the session's questions or the console, and it
    shortens the queue by exactly the callback that ran. *)
Theorem callback_frame (now : string) (w : World) :
  allQuizData (ui (fire now w)) = allQuizData (ui w) /\
  categories (ui (fire now w)) = categories (ui w) /\
  selectedCategory (ui (fire now w)) = selectedCategory (ui w) /\
  quizData (ui (fire now w)) = quizData (ui w) /\
  console (fire now w) = console w /\
  timeouts (fire now w) = tl (timeouts w).
Proof.
  destruct (timeouts w) as [| p rest] eqn:Hq.
  - unfold fire. rewrite Hq. auto 10.
  - rewrite (fire_cons now w p rest Hq). simpl.
    destruct (settle_keeps now p (ui w)) as (H1 & H2 & H3 & H4 & _).
    auto 10.
Qed.



Lemma no_question_no_option (s : State) (j : Z) :
  quizData s = [] -> offered s (PressOption j) = false.
Proof.
  intros Hqs. unfold offered, screen.
  destruct (loading s); [reflexivity |].
  destruct (negb (truthy (selectedCategory s))); [reflexivity |].
  destruct (isQuizCompleted s); [reflexivity |].
  rewrite Hqs. unfold at_index.
  destruct (currentQuestionIndex s <? 0); [reflexivity |].
  destruct (Z.to_nat (currentQuestionIndex s)); reflexivity.
Qed.

Lemma seconds_keep_questions (k : nat) (w : World) :
  quizData (ui (run (repeat Second k) w)) = quizData (ui w).
Proof.
  revert w. induction k as [| k IH]; intros w; [reflexivity |].
  simpl repeat. rewrite run_cons, IH. simpl step.
  unfold tick. destruct (timerRunning (ui w)); [| reflexivity].
  destruct (timerExpired _); reflexivity.
Qed.

(** X9. On a freshly selected category whose question list is empty, no
    option button is offered at any second of the countdown, so the one
    call the session gets is the timeout when the ten seconds are over.
    Its callback completes the session at once with the answer -1
    recorded, pushes the entry [{score: 0, totalQuestions: 0}] and leaves a
    completion screen whose percentage is not a number. *)
Theorem empty_session_outcome (c : string) (w : World) (now : string) :
  in_question c [] 0 w ->
  c <> "" ->
  loading (ui w) = false ->
  let w' := run (reply_events (Expire now)) w in
  (forall (k : nat) (j : Z),
      (k <= 10)%nat ->
      offered (ui (run (repeat Second k) w)) (PressOption j) = false) /\
  calls_made (repeat Second 10) w = [-1] /\
  answers (ui w') = [-1] /\
  scores w' = scores w ++ [ScoreRecord.mk (Some c) 0 0 now] /\
  screen (ui w') = CompletedScreen (Some c) 0 0 PctNaN.
Proof.
  intros (Hc & Hqs & Hi & Ha & Hd & Ht & Hq) Hname Hl w'. subst w'.
  pose proof (truthy_named c Hname) as Htr.
  assert (Htr' : truthy (selectedCategory (ui w)) = true)
    by (rewrite Hc; exact Htr).
  split.
  { intros k j _. apply no_question_no_option.
    rewrite seconds_keep_questions. exact Hqs. }
  split.
  { assert (Hsec : Forall is_call (repeat Second 10)) by (repeat constructor).
    pose proof (run_queues_calls (repeat Second 10) w Hsec) as Hqueue.
    rewrite (seconds_expire 9 w) in Hqueue by (assumption || lia).
    cbn [timeouts handleAnswerSelect setUi] in Hqueue.
    rewrite Hq in Hqueue. symmetry. exact Hqueue. }
  unfold reply_events. rewrite run_app.
  rewrite (seconds_expire 9 w) by (assumption || lia).
  change (run [HalfSecond now] ?x) with (fire now x).
  set (v := setUi (setTimeLeft 0) w).
  rewrite (fire_call now (-1) v Hq).
  rewrite settle_last by (subst v; simpl; rewrite Hi, Hqs; simpl; lia).
  subst v. simpl. unfold screen. simpl. rewrite Hl, Hc, Htr, Hqs. simpl.
  destruct (answers (ui w)); [auto | discriminate].
Qed.

Lemma empty_session_outcome_witness :
  in_question "Empty" [] 0
              (run [PressCategory "Empty"] (initialWorld sampleBank)) /\
  screen (ui (run (reply_events (Expire "t"))
                  (run [PressCategory "Empty"] (initialWorld sampleBank)))) =
  CompletedScreen (Some "Empty") 0 0 PctNaN.
Proof.
  assert (Hw : in_question "Empty" [] 0
                 (run [PressCategory "Empty"] (initialWorld sampleBank)))
    by (unfold in_question; simpl; auto 10).
  split; [exact Hw |].
  destruct (empty_session_outcome
              "Empty" (run [PressCategory "Empty"] (initialWorld sampleBank))
              "t" Hw) as (_ & _ & _ & _ & Hscreen).
  - discriminate.
  - reflexivity.
  - exact Hscreen.
Defined.

(** ** The subscription over time *)

Lemma last_mapping_found (ps : list Payload) (found : option Bank) :
  last_mapping ps found =
  match last_mapping ps None with
  | Some m => Some m
  | None => found
  end.
Proof.
  revert found. induction ps as [| [| items | m] ps IH]; intros found; simpl; auto.
  rewrite (IH (Some m)). destruct (last_mapping ps None); reflexivity.
Qed.

(** X10. After any sequence of deliveries the bank is the last object
    delivered, with its keys as category list, or the previous bank and
    list if no object was delivered; nothing of an earlier delivery
    survives, and the session is as it was. *)
Theorem last_mapping_wins (ps : list Payload) (w : World) :
  let w' := run (map RemoteValue ps) w in
  allQuizData (ui w') = last_mapping ps (allQuizData (ui w)) /\
  categories (ui w') =
    match last_mapping ps None with
    | Some m => Object_keys m
    | None => categories (ui w)
    end /\
  session (ui w') = session (ui w).
Proof.
  revert w. induction ps as [| p ps IH]; intros w; [simpl; auto |].
  simpl map. rewrite run_cons. cbv zeta.
  destruct (IH (step w (RemoteValue p))) as (H1 & H2 & H3).
  rewrite H1, H2, H3. clear IH H1 H2 H3.
  destruct p as [| items | m]; simpl; auto.
  rewrite (last_mapping_found ps (Some m)).
  destruct (last_mapping ps None); auto.
Qed.

(** The category list stays the key list of the bank. *)
Lemma step_keeps_listing (w : World) (e : Event) :
  categories_listed (ui w) -> categories_listed (ui (step w e)).
Proof.
  intros (bank & Hb & Hk).
  destruct e as [data | c | | i | | | now]; simpl.
  - destruct data as [| items | m]; simpl; [exists bank | exists bank | exists m]; auto.
  - unfold handleCategorySelect. rewrite Hb.
    destruct (lookup bank c); exists bank; auto.
  - exists bank. auto.
  - exists bank. auto.
  - exists bank. auto.
  - unfold tick. destruct (timerRunning (ui w)); [| exists bank; auto].
    destruct (timerExpired _); exists bank; auto.
  - destruct (callback_frame_fields now w) as (H1 & H2).
    exists bank. rewrite H1, H2. auto.
Qed.

Lemma run_keeps_listing (es : list Event) (w : World) :
  categories_listed (ui w) -> categories_listed (ui (run es w)).
Proof.
  revert w. induction es as [| e es IH]; intros w Hw; [exact Hw |].
  rewrite run_cons. apply IH, step_keeps_listing, Hw.
Qed.

(** X11. At any moment after the first render, every category the category
    screen lists is a key of the bank in use, so pressing its button always
    starts a fresh session on the questions stored under it. *)
Theorem listed_category_starts_session
        (QuizData : Bank) (es : list Event) (c : string) :
  let w := run es (initialWorld QuizData) in
  In c (categories (ui w)) ->
  exists bank qs,
    allQuizData (ui w) = Some bank /\
    lookup bank c = Some qs /\
    session (ui (step w (PressCategory c))) = (Some c, qs, 0, [], 0, false, 10, None).
Proof.
  intros w Hin.
  assert (Hlisted : categories_listed (ui w)).
  { apply run_keeps_listing. exists QuizData. split; reflexivity. }
  destruct Hlisted as (bank & Hb & Hk).
  rewrite Hk in Hin.
  destruct (lookup_of_key bank c Hin) as (qs & Hl & _).
  exists bank, qs. repeat split; try assumption.
  simpl. unfold handleCategorySelect. rewrite Hb, Hl. reflexivity.
Qed.

Lemma listed_category_starts_session_witness :
  In "Math"
     (categories
        (ui (run [PressCategory "General"; RemoteValue (Mapping [("Math", [q_sort])])]
                 (initialWorld sampleBank)))) /\
  exists bank qs,
    allQuizData
      (ui (run [PressCategory "General"; RemoteValue (Mapping [("Math", [q_sort])])]
               (initialWorld sampleBank))) = Some bank /\
    lookup bank "Math" = Some qs.
Proof.
  split; [simpl; auto |].
  destruct (listed_category_starts_session
              sampleBank
              [PressCategory "General"; RemoteValue (Mapping [("Math", [q_sort])])]
              "Math") as (bank & qs & Hb & Hl & _).
  - simpl. auto.
  - exists bank, qs. split; assumption.
Defined.

(** ** The score loop at its edges *)

Lemma filter_all (A : Type) (f : A -> bool) (l : list A) :
  (forall x, In x l -> f x = true) -> filter f l = l.
Proof.
  induction l as [| x l IH]; intros H; simpl; [reflexivity |].
  rewrite (H x (or_introl eq_refl)), IH; [reflexivity |].
  intros y Hy. apply H. right. exact Hy.
Qed.

Lemma filter_none (A : Type) (f : A -> bool) (l : list A) :
  (forall x, In x l -> f x = false) -> filter f l = [].
Proof.
  induction l as [| x l IH]; intros H; simpl; [reflexivity |].
  rewrite (H x (or_introl eq_refl)). apply IH.
  intros y Hy. apply H. right. exact Hy.
Qed.

(** X12. Answering every question with its [correct] option gives the full
    score: the loop counts as many hits as there are questions. *)
Theorem all_correct_full_score (qs : list Question) :
  finalScore qs (map correct qs) = Z.of_nat (List.length qs).
Proof.
  rewrite finalScore_count_matching. unfold count_matching.
  rewrite filter_all, length_seq; [reflexivity |].
  intros i Hi. apply in_seq in Hi. unfold matches.
  rewrite nth_error_map.
  destruct (nth_error qs i) as [q |] eqn:Hq; simpl.
  - apply Z.eqb_refl.
  - apply nth_error_None in Hq. lia.
Qed.

(** X13. The loop never counts more hits than answers were given, whatever
    the questions; with no answer at all the score is zero. *)
Theorem score_bounded_by_answers (qs : list Question) (given : list Z) :
  0 <= finalScore qs given <= Z.of_nat (List.length given) /\
  finalScore qs [] = 0.
Proof.
  rewrite !finalScore_count_matching. unfold count_matching. split.
  - split; [lia |]. apply inj_le.
    rewrite <- (length_seq (List.length given) 0%nat).
    apply NoDup_incl_length.
    + apply NoDup_filter, seq_NoDup.
    + intros i Hi. apply filter_In in Hi. destruct Hi as [_ Hm].
      unfold matches in Hm.
      destruct (nth_error given i) eqn:Hg; [| discriminate].
      apply in_seq. split; [lia |].
      apply nth_error_Some. congruence.
  - rewrite filter_none; [reflexivity |].
    intros i _. unfold matches. destruct i; reflexivity.
Qed.

(** X14. Answers recorded beyond the last question do not count: once every
    question has an answer, appending more answers leaves the score as it
    is. *)
Theorem surplus_answers_ignored (qs : list Question) (given extra : list Z) :
  (List.length qs <= List.length given)%nat ->
  finalScore qs (given ++ extra) = finalScore qs given.
Proof.
  intros Hlen. rewrite !finalScore_count_matching. unfold count_matching.
  do 2 f_equal. apply filter_ext_in.
  intros i Hi. apply in_seq in Hi. unfold matches.
  rewrite nth_error_app1 by lia. reflexivity.
Qed.

Lemma surplus_answers_ignored_witness :
  (List.length [q_stack; q_sort] <= List.length [1; 0])%nat /\
  finalScore [q_stack; q_sort] ([1; 0] ++ [0; 1]) = 2.
Proof.
  assert (Hlen : (List.length [q_stack; q_sort] <= List.length [1; 0])%nat)
    by (simpl; lia).
  split; [exact Hlen |].
  rewrite (surplus_answers_ignored [q_stack; q_sort] [1; 0] [0; 1] Hlen).
  reflexivity.
Defined.

(** Recording the answer to question [n] adds one to the count exactly when
    it is the right option of that question. *)
Lemma count_matching_snoc (qs : list Question) (given : list Z) (a : Z)
      (q : Question) :
  nth_error qs (List.length given) = Some q ->
  count_matching qs (given ++ [a]) =
  count_matching qs given + (if a =? correct q then 1 else 0).
Proof.
  intros Hq.
  assert (Hn : (List.length given < List.length qs)%nat)
    by (apply nth_error_Some; congruence).
  unfold count_matching.
  assert (Hsplit : seq 0 (List.length qs) =
                   seq 0 (List.length given) ++
                   List.length given ::
                   seq (S (List.length given))
                       (List.length qs - S (List.length given))).
  { replace (List.length qs)
      with (List.length given + S (List.length qs - S (List.length given)))%nat
      at 1 by lia.
    rewrite seq_app. reflexivity. }
  assert (Hhead : filter (matches qs (given ++ [a])) (seq 0 (List.length given)) =
                  filter (matches qs given) (seq 0 (List.length given))).
  { apply filter_ext_in. intros i Hi. apply in_seq in Hi. unfold matches.
    rewrite nth_error_app1 by lia. reflexivity. }
  assert (Htail1 : forall k, filter (matches qs (given ++ [a]))
                                    (seq (S (List.length given)) k) = []).
  { intros k. apply filter_none. intros i Hi. apply in_seq in Hi. unfold matches.
    replace (nth_error (given ++ [a]) i) with (@None Z); [reflexivity |].
    symmetry. apply nth_error_None. rewrite length_app. simpl. lia. }
  assert (Htail2 : forall k, filter (matches qs given)
                                    (seq (S (List.length given)) k) = []).
  { intros k. apply filter_none. intros i Hi. apply in_seq in Hi. unfold matches.
    replace (nth_error given i) with (@None Z); [reflexivity |].
    symmetry. apply nth_error_None. lia. }
  assert (Hm1 : matches qs (given ++ [a]) (List.length given) = (a =? correct q)).
  { unfold matches. rewrite nth_error_app2, Nat.sub_diag by lia.
    simpl. rewrite Hq. reflexivity. }
  assert (Hm2 : matches qs given (List.length given) = false).
  { unfold matches.
    replace (nth_error given (List.length given)) with (@None Z); [reflexivity |].
    symmetry. apply nth_error_None. lia. }
  rewrite Hsplit, !filter_app, !length_app. simpl filter.
  rewrite Hhead, Htail1, Htail2, Hm1, Hm2.
  destruct (a =? correct q); simpl; lia.
Qed.

(** ** A session question by question *)

Lemma count_matching_nil (qs : list Question) : count_matching qs [] = 0.
Proof.
  unfold count_matching. rewrite filter_none; [reflexivity |].
  intros i _. unfold matches. destruct i; reflexivity.
Qed.

Lemma at_index_nat (A : Type) (xs : list A) (n : nat) :
  at_index xs (Z.of_nat n) = nth_error xs n.
Proof.
  unfold at_index.
  replace (Z.of_nat n <? 0) with false by (symmetry; apply Z.ltb_ge; lia).
  rewrite Nat2Z.id. reflexivity.
Qed.

(** The advancing branch of the callback with the score it leaves. *)
Lemma settle_next_score (now : string) (p : Pending) (s : State) :
  currentQuestionIndex (render p) < Z.of_nat (List.length (quizData (render p))) - 1 ->
  settle now p s =
  (mkState (allQuizData s) (categories s) (selectedCategory s) (quizData s)
           (loading s) (currentQuestionIndex (render p) + 1)
           (answers (render p) ++ [index p])
           (if strict_eq (Some (index p))
                         (option_map correct
                            (at_index (quizData (render p))
                                      (currentQuestionIndex (render p))))
            then score (render p) + 1 else score s)
           (isQuizCompleted s) 10 None,
   None).
Proof.
  intros Hnext. unfold settle.
  apply Z.ltb_lt in Hnext. rewrite Hnext. cbv zeta.
  destruct (strict_eq (Some (index p)) _); reflexivity.
Qed.

Section SessionSteps.

Variable c : string.
Variable qs : list Question.
Hypothesis c_named : c <> "".

Lemma select_starts_at (bank : Bank) (w : World) :
  timeouts w = [] ->
  allQuizData (ui w) = Some bank ->
  lookup bank c = Some qs ->
  at_question c qs 0 (handleCategorySelect c w) /\
  scores (handleCategorySelect c w) = scores w /\
  loading (ui (handleCategorySelect c w)) = loading (ui w).
Proof.
  intros Hq Hb Hl. split; [split |].
  - eapply select_starts; eassumption.
  - unfold handleCategorySelect. rewrite Hb, Hl. simpl.
    rewrite count_matching_nil. auto.
  - unfold handleCategorySelect. rewrite Hb, Hl. auto.
Qed.

Lemma call_advances_at (now : string) (i t : Z) (n : nat) (w : World) :
  at_question c qs n w ->
  (S n < List.length qs)%nat ->
  at_question c qs (S n) (fire now (handleAnswerSelect i (setUi (setTimeLeft t) w))) /\
  scores (fire now (handleAnswerSelect i (setUi (setTimeLeft t) w))) = scores w.
Proof.
  intros (Hin & Hsel & Hsc) Hn.
  split; [split; [apply call_advances; assumption |] |].
  - destruct Hin as (Hc & Hqs & Hi & Ha & Hd & _ & Hq).
    set (v := setUi (setTimeLeft t) w).
    rewrite (fire_call now i v Hq).
    rewrite settle_next_score by (subst v; simpl; rewrite Hi, Hqs; lia).
    subst v. simpl. split; [reflexivity |].
    rewrite Hi, Hqs, at_index_nat.
    destruct (nth_error qs n) as [q |] eqn:Hqn;
      [| apply nth_error_None in Hqn; lia].
    rewrite <- Ha in Hqn.
    rewrite (count_matching_snoc qs (answers (ui w)) i q Hqn), <- Hsc.
    simpl. destruct (i =? correct q); lia.
  - destruct Hin as (Hc & Hqs & Hi & Ha & Hd & _ & Hq).
    set (v := setUi (setTimeLeft t) w).
    rewrite (fire_call now i v Hq).
    rewrite settle_next_score by (subst v; simpl; rewrite Hi, Hqs; lia).
    reflexivity.
Qed.

Lemma replies_progress (rs : list Reply) :
  forall (n : nat) (w : World),
    at_question c qs n w ->
    Forall in_time rs ->
    (n + List.length rs < List.length qs)%nat ->
    at_question c qs (n + List.length rs) (run (flat_map reply_events rs) w) /\
    scores (run (flat_map reply_events rs) w) = scores w.
Proof.
  induction rs as [| r rs IH]; intros n w Hw Hrs Hlen.
  - simpl. rewrite Nat.add_0_r. auto.
  - inversion Hrs as [| ? ? Hr Hrs']; subst.
    simpl flat_map. rewrite run_app.
    destruct (reply_is_one_call c qs c_named r n w (proj1 Hw) Hr)
      as (now & i & t & ->).
    simpl List.length in Hlen |- *.
    destruct (call_advances_at now i t n w Hw) as [Hnext Hsc]; [lia |].
    destruct (IH (S n) _ Hnext Hrs') as [Hend Hsc']; [lia |].
    replace (n + S (List.length rs))%nat with (S n + List.length rs)%nat by lia.
    split; [exact Hend | congruence].
Qed.

Lemma replies_outcome (rs : list Reply) (r : Reply) (w : World) :
  at_question c qs 0 w ->
  Forall in_time (rs ++ [r]) ->
  List.length (rs ++ [r]) = List.length qs ->
  let w' := run (flat_map reply_events (rs ++ [r])) w in
  selectedCategory (ui w') = Some c /\
  quizData (ui w') = qs /\
  isQuizCompleted (ui w') = true /\
  timeouts w' = [] /\
  List.length (answers (ui w')) = List.length qs /\
  score (ui w') = count_matching qs (answers (ui w')) /\
  exists now,
    scores w' =
    scores w ++ [ScoreRecord.mk (Some c) (score (ui w'))
                                (Z.of_nat (List.length qs)) now].
Proof.
  intros Hw Hrs Hlen w'. subst w'.
  apply Forall_app in Hrs. destruct Hrs as [Hrs Hr].
  inversion Hr as [| ? ? Hr' _]; subst.
  rewrite length_app in Hlen. simpl in Hlen.
  rewrite flat_map_app, run_app. simpl flat_map. rewrite app_nil_r.
  destruct (replies_progress rs 0 w Hw Hrs) as [Hmid Hsc]; [lia |].
  simpl in Hmid.
  destruct (reply_is_one_call c qs c_named r (List.length rs) _ (proj1 Hmid) Hr')
    as (now & i & t & ->).
  destruct (call_completes c qs now i t (List.length rs) _ (proj1 Hmid))
    as (H1 & H2 & H3 & H4 & H5 & H6); [lia |].
  rewrite H3 in H2.
  repeat split; try assumption.
  - destruct Hmid as ((_ & _ & _ & _ & _ & _ & Hq) & _).
    set (v := setUi (setTimeLeft t) (run (flat_map reply_events rs) w)).
    rewrite (fire_call now i v Hq). reflexivity.
  - exists now. rewrite H6, Hsc, H5. reflexivity.
Qed.

End SessionSteps.

(** X15. In a session answered once per question, the running score kept by
    [setScore(score + 1)] is at every question the number of right answers
    recorded so far, the cursor is the number of answers recorded, and
    nothing is pushed under ["scores"] before the last question. *)
Theorem running_score_is_count
        (w : World) (bank : Bank) (c : string) (qs : list Question)
        (rs : list Reply) :
  timeouts w = [] ->
  allQuizData (ui w) = Some bank ->
  lookup bank c = Some qs ->
  c <> "" ->
  (List.length rs < List.length qs)%nat ->
  Forall in_time rs ->
  let w' := run (session_events c rs) w in
  score (ui w') = count_matching qs (answers (ui w')) /\
  currentQuestionIndex (ui w') = Z.of_nat (List.length rs) /\
  List.length (answers (ui w')) = List.length rs /\
  isQuizCompleted (ui w') = false /\
  scores w' = scores w.
Proof.
  intros Hq Hb Hl Hc Hlen Hrs w'. subst w'.
  unfold session_events. rewrite run_cons. simpl step.
  destruct (select_starts_at c qs bank w Hq Hb Hl) as (H0 & Hsc0 & _).
  destruct (replies_progress c qs Hc rs 0 _ H0 Hrs) as [Hend Hsc]; [lia |].
  simpl in Hend.
  destruct Hend as ((_ & _ & Hi & Ha & Hd & _) & _ & Hscore).
  repeat split; try assumption. congruence.
Qed.

Lemma running_score_is_count_witness :
  (List.length [Pick 4 1 "t1"] < List.length [q_stack; q_sort])%nat /\
  Forall in_time [Pick 4 1 "t1"] /\
  score (ui (run (session_events "Algorithms" [Pick 4 1 "t1"])
                 (initialWorld sampleBank))) = 1.
Proof.
  assert (Hlen : (List.length [Pick 4 1 "t1"] < List.length [q_stack; q_sort])%nat)
    by (simpl; lia).
  assert (Hrs : Forall in_time [Pick 4 1 "t1"])
    by (repeat constructor; simpl; lia).
  split; [exact Hlen |].
  split; [exact Hrs |].
  destruct (running_score_is_count
              (initialWorld sampleBank) sampleBank "Algorithms"
              [q_stack; q_sort] [Pick 4 1 "t1"] eq_refl eq_refl eq_refl)
    as (Hscore & _); [discriminate | exact Hlen | exact Hrs | exact Hscore].
Defined.

(** X16. After [k] replies of a session that has more than [k] questions,
    the question screen is up: it shows question [k] of the list, the
    position [k + 1] out of the number of questions, ten seconds on the
    clock and no option highlighted. *)
Theorem question_screen_progress
        (w : World) (bank : Bank) (c : string) (qs : list Question)
        (rs : list Reply) :
  loading (ui w) = false ->
  timeouts w = [] ->
  allQuizData (ui w) = Some bank ->
  lookup bank c = Some qs ->
  c <> "" ->
  (List.length rs < List.length qs)%nat ->
  Forall in_time rs ->
  screen (ui (run (session_events c rs) w)) =
  QuestionScreen (Some c) (nth_error qs (List.length rs))
                 (Z.of_nat (List.length rs) + 1) (Z.of_nat (List.length qs))
                 10 None.
Proof.
  intros Hload Hq Hb Hl Hc Hlen Hrs.
  pose proof (run_keeps_loading (session_events c rs) w) as Hload'.
  rewrite Hload in Hload'.
  revert Hload'. unfold session_events. rewrite run_cons. simpl step.
  destruct (select_starts_at c qs bank w Hq Hb Hl) as (H0 & _ & _).
  destruct (replies_progress c qs Hc rs 0 _ H0 Hrs) as [Hend _]; [lia |].
  simpl in Hend.
  destruct Hend as ((Hsel & Hqs & Hi & _ & Hd & Ht & _) & Hnone & _).
  intros Hload'. unfold screen.
  rewrite Hload', Hsel, (truthy_named c Hc), Hd, Hqs, Hi, Ht, Hnone, at_index_nat.
  reflexivity.
Qed.

Lemma question_screen_progress_witness :
  (List.length [Expire "t1"] < List.length [q_stack; q_sort])%nat /\
  Forall in_time [Expire "t1"] /\
  screen (ui (run (session_events "Algorithms" [Expire "t1"])
                  (initialWorld sampleBank))) =
  QuestionScreen (Some "Algorithms") (Some q_sort) 2 2 10 None.
Proof.
  assert (Hlen : (List.length [Expire "t1"] < List.length [q_stack; q_sort])%nat)
    by (simpl; lia).
  assert (Hrs : Forall in_time [Expire "t1"]) by (repeat constructor).
  split; [exact Hlen |].
  split; [exact Hrs |].
  refine (question_screen_progress
            (initialWorld sampleBank) sampleBank "Algorithms"
            [q_stack; q_sort] [Expire "t1"] eq_refl eq_refl eq_refl eq_refl
            _ Hlen Hrs).
  discriminate.
Defined.

(** X17. At the end of a session answered once per question on a category
    with at least one question, the completion screen is up: it shows the
    category, the number of right answers among the recorded ones, the
    number of questions and a finite percentage; the score lies between
    zero and the number of questions, and exactly one entry, with that
    score, has been pushed under ["scores"]. *)
Theorem completion_screen_of_session
        (w : World) (bank : Bank) (c : string) (qs : list Question)
        (rs : list Reply) :
  loading (ui w) = false ->
  timeouts w = [] ->
  allQuizData (ui w) = Some bank ->
  lookup bank c = Some qs ->
  c <> "" ->
  qs <> [] ->
  List.length rs = List.length qs ->
  Forall in_time rs ->
  let w' := run (session_events c rs) w in
  let total := Z.of_nat (List.length qs) in
  exists (sc : Z) (now : string),
    screen (ui w') = CompletedScreen (Some c) sc total (PctFinite sc total) /\
    sc = count_matching qs (answers (ui w')) /\
    0 <= sc <= total /\
    scores w' = scores w ++ [ScoreRecord.mk (Some c) sc total now].
Proof.
  intros Hload Hq Hb Hl Hc Hqs Hlen Hrs w' total. subst w' total.
  pose proof (run_keeps_loading (session_events c rs) w) as Hload'.
  rewrite Hload in Hload'. revert Hload'.
  unfold session_events. rewrite run_cons. simpl step.
  destruct (select_starts_at c qs bank w Hq Hb Hl) as (H0 & Hsc0 & _).
  assert (Hne : rs <> [])
    by (intros ->; destruct qs; [congruence | discriminate]).
  destruct (exists_last Hne) as (init & r & ->).
  destruct (replies_outcome c qs Hc init r _ H0 Hrs Hlen)
    as (Hsel & Hquiz & Hdone & _ & _ & Hscore & now & Hpushed).
  intros Hload'.
  exists (score (ui (run (flat_map reply_events (init ++ [r]))
                         (handleCategorySelect c w)))), now.
  split; [| split; [exact Hscore | split]].
  - unfold screen, percentage.
    rewrite Hload', Hsel, (truthy_named c Hc), Hdone, Hquiz.
    replace (Z.of_nat (List.length qs) =? 0) with false; [reflexivity |].
    symmetry. apply Z.eqb_neq. destruct qs; [congruence | simpl; lia].
  - rewrite Hscore. apply count_matching_bounds.
  - rewrite Hpushed, Hsc0. reflexivity.
Qed.

Lemma completion_screen_of_session_witness :
  List.length [Pick 0 1 "t1"; Pick 9 0 "t2"] = List.length [q_stack; q_sort] /\
  Forall in_time [Pick 0 1 "t1"; Pick 9 0 "t2"] /\
  exists sc now,
    screen (ui (run (session_events "Algorithms" [Pick 0 1 "t1"; Pick 9 0 "t2"])
                    (initialWorld sampleBank))) =
    CompletedScreen (Some "Algorithms") sc 2 (PctFinite sc 2) /\
    scores (run (session_events "Algorithms" [Pick 0 1 "t1"; Pick 9 0 "t2"])
                (initialWorld sampleBank)) =
    [ScoreRecord.mk (Some "Algorithms") sc 2 now].
Proof.
  assert (Hrs : Forall in_time [Pick 0 1 "t1"; Pick 9 0 "t2"])
    by (repeat constructor; simpl; lia).
  split; [reflexivity |].
  split; [exact Hrs |].
  destruct (completion_screen_of_session
              (initialWorld sampleBank) sampleBank "Algorithms"
              [q_stack; q_sort] [Pick 0 1 "t1"; Pick 9 0 "t2"]
              eq_refl eq_refl eq_refl eq_refl)
    as (sc & now & Hscreen & _ & _ & Hpushed);
    [discriminate | discriminate | reflexivity | exact Hrs |].
  exists sc, now. split; [exact Hscreen | exact Hpushed].
Defined.

(** X18. "Restart Quiz" after a completed session starts the same questions
    again: answering each of them once more completes the session a second
    time, with the score recounted from the new answers alone and a second
    entry pushed. *)
Theorem restart_replays_session
        (w : World) (bank : Bank) (c : string) (qs : list Question)
        (rs1 rs2 : list Reply) :
  timeouts w = [] ->
  allQuizData (ui w) = Some bank ->
  lookup bank c = Some qs ->
  c <> "" ->
  qs <> [] ->
  List.length rs1 = List.length qs ->
  List.length rs2 = List.length qs ->
  Forall in_time rs1 ->
  Forall in_time rs2 ->
  let w1 := run (session_events c rs1) w in
  let w2 := run (PressRestart :: flat_map reply_events rs2) w1 in
  quizData (ui w2) = qs /\
  isQuizCompleted (ui w2) = true /\
  List.length (answers (ui w2)) = List.length qs /\
  score (ui w2) = count_matching qs (answers (ui w2)) /\
  exists now1 now2,
    scores w2 =
    scores w ++
    [ScoreRecord.mk (Some c) (score (ui w1)) (Z.of_nat (List.length qs)) now1;
     ScoreRecord.mk (Some c) (score (ui w2)) (Z.of_nat (List.length qs)) now2].
Proof.
  intros Hq Hb Hl Hc Hqs Hlen1 Hlen2 Hrs1 Hrs2 w1 w2. subst w2 w1.
  unfold session_events. rewrite (run_cons (PressCategory c)). simpl step.
  destruct (select_starts_at c qs bank w Hq Hb Hl) as (H0 & Hsc0 & _).
  assert (Hne1 : rs1 <> [])
    by (intros ->; destruct qs; [congruence | discriminate]).
  assert (Hne2 : rs2 <> [])
    by (intros ->; destruct qs; [congruence | discriminate]).
  destruct (exists_last Hne1) as (init1 & r1 & ->).
  destruct (exists_last Hne2) as (init2 & r2 & ->).
  destruct (replies_outcome c qs Hc init1 r1 _ H0 Hrs1 Hlen1)
    as (Hsel & Hquiz & _ & Hempty & _ & _ & now1 & Hpushed1).
  set (w1 := run (flat_map reply_events (init1 ++ [r1])) (handleCategorySelect c w))
    in *.
  rewrite run_cons. simpl step.
  assert (Hagain : at_question c qs 0 (setUi restartQuiz w1)).
  { unfold at_question, in_question. simpl.
    rewrite count_matching_nil. auto 12. }
  destruct (replies_outcome c qs Hc init2 r2 _ Hagain Hrs2 Hlen2)
    as (_ & Hquiz2 & Hdone2 & _ & Hlen & Hscore2 & now2 & Hpushed2).
  repeat split; try assumption.
  exists now1, now2.
  rewrite Hpushed2. simpl scores. rewrite Hpushed1, Hsc0, <- app_assoc.
  reflexivity.
Qed.

Lemma restart_replays_session_witness :
  Forall in_time [Expire "t1"] /\
  Forall in_time [Pick 2 1 "t2"] /\
  score (ui (run (PressRestart :: flat_map reply_events [Pick 2 1 "t2"])
                 (run (session_events "General" [Expire "t1"])
                      (initialWorld sampleBank)))) =
  count_matching [q_stack]
    (answers (ui (run (PressRestart :: flat_map reply_events [Pick 2 1 "t2"])
                      (run (session_events "General" [Expire "t1"])
                           (initialWorld sampleBank))))).
Proof.
  assert (Hrs1 : Forall in_time [Expire "t1"]) by (repeat constructor).
  assert (Hrs2 : Forall in_time [Pick 2 1 "t2"])
    by (repeat constructor; simpl; lia).
  split; [exact Hrs1 |].
  split; [exact Hrs2 |].
  destruct (restart_replays_session
              (initialWorld sampleBank) sampleBank "General" [q_stack]
              [Expire "t1"] [Pick 2 1 "t2"] eq_refl eq_refl eq_refl)
    as (_ & _ & _ & Hscore & _);
    [discriminate | discriminate | reflexivity | reflexivity
     | exact Hrs1 | exact Hrs2 |].
  exact Hscore.
Defined.

(** ** Styling *)

(** X19. The icon and the colour of a category are the defaults, "book"
    and "#6200ea", exactly when the category is none of the five subjects
    the two helpers name; the two helpers therefore agree on which
    categories have a style of their own, and the five colours are
    pairwise different. *)
Theorem category_style (c : string) :
  (getCategoryIcon c = "book" <-> ~ In c styled_categories) /\
  (getCategoryColor c = "#6200ea" <-> ~ In c styled_categories) /\
  (forall c', In c styled_categories -> In c' styled_categories ->
              getCategoryColor c = getCategoryColor c' -> c = c').
Proof.
  unfold getCategoryIcon, getCategoryColor, styled_categories.
  destruct (String.eqb c "Data Structures") eqn:E1;
    [apply String.eqb_eq in E1; subst c |];
    [| destruct (String.eqb c "Algorithms") eqn:E2;
       [apply String.eqb_eq in E2; subst c |];
       [| destruct (String.eqb c "Operating Systems") eqn:E3;
          [apply String.eqb_eq in E3; subst c |];
          [| destruct (String.eqb c "Database Systems") eqn:E4;
             [apply String.eqb_eq in E4; subst c |];
             [| destruct (String.eqb c "Computer Networks") eqn:E5;
                [apply String.eqb_eq in E5; subst c |]]]]].
  1-5: repeat split;
    try (intros H; discriminate H);
    try (intros H; exfalso; apply H; simpl; tauto);
    intros c' _ Hc' Hcol; simpl in Hc';
    repeat (destruct Hc' as [<- | Hc']; [reflexivity || discriminate Hcol |]);
    contradiction.
  apply String.eqb_neq in E1, E2, E3, E4, E5.
  assert (Hout : ~ In c ["Data Structures"; "Algorithms"; "Operating Systems";
                          "Database Systems"; "Computer Networks"]).
  { simpl. intros [H | [H | [H | [H | [H | []]]]]]; congruence. }
  repeat split; auto.
  intros c' Hin. contradiction.
Qed.

Lemma category_style_witness :
  In "Algorithms" styled_categories /\
  In "Database Systems" styled_categories /\
  (getCategoryColor "Algorithms" = getCategoryColor "Database Systems" ->
   "Algorithms" = "Database Systems").
Proof.
  assert (H1 : In "Algorithms" styled_categories) by (simpl; tauto).
  assert (H2 : In "Database Systems" styled_categories) by (simpl; tauto).
  split; [exact H1 |].
  split; [exact H2 |].
  destruct (category_style "Algorithms") as (_ & _ & Hinj).
  exact (Hinj "Database Systems" H1 H2).
Defined.

(** ** The countdown on screen *)

(** X20. While a question waits for its answer, the clock shows ten minus
    the seconds elapsed, nothing is queued and the recorded answers and the
    highlight stay as they are; the tenth second puts the clock at zero,
    highlights option -1 and queues exactly one callback, for option -1. *)
Theorem countdown_on_screen
        (c : string) (qs : list Question) (n : nat) (w : World) (k : nat) :
  in_question c qs n w ->
  c <> "" ->
  (k <= 10)%nat ->
  let w' := run (repeat Second k) w in
  timeLeft (ui w') = 10 - Z.of_nat k /\
  answers (ui w') = answers (ui w) /\
  ((k < 10)%nat ->
   timeouts w' = [] /\ selectedIndex (ui w') = selectedIndex (ui w)) /\
  (k = 10%nat ->
   map index (timeouts w') = [-1] /\ selectedIndex (ui w') = Some (-1)).
Proof.
  intros (Hc & _ & _ & _ & Hd & Ht & Hq) Hname Hk w'. subst w'.
  assert (Htr : truthy (selectedCategory (ui w)) = true)
    by (rewrite Hc; apply truthy_named, Hname).
  destruct (Nat.eq_dec k 10) as [-> | Hk10].
  - rewrite (seconds_expire 9 w) by (assumption || lia).
    simpl. rewrite Hq.
    split; [reflexivity |]. split; [reflexivity |].
    split; [intros Hlt; lia | intros _; split; reflexivity].
  - rewrite (seconds_count_down k w) by (assumption || lia).
    simpl. rewrite Ht.
    split; [reflexivity |]. split; [reflexivity |].
    split; [intros _; split; [exact Hq | reflexivity] | intros Heq; lia].
Qed.

Lemma countdown_on_screen_witness :
  in_question "Algorithms" [q_stack; q_sort] 0 w_algorithms /\
  timeLeft (ui (run (repeat Second 7) w_algorithms)) = 3 /\
  map index (timeouts (run (repeat Second 10) w_algorithms)) = [-1].
Proof.
  assert (Hw : in_question "Algorithms" [q_stack; q_sort] 0 w_algorithms)
    by (unfold in_question; simpl; auto 10).
  assert (Hname : "Algorithms" <> "") by discriminate.
  split; [exact Hw |].
  split.
  - destruct (countdown_on_screen "Algorithms" [q_stack; q_sort] 0
                                  w_algorithms 7 Hw Hname) as (Hleft & _);
      [lia | exact Hleft].
  - destruct (countdown_on_screen "Algorithms" [q_stack; q_sort] 0
                                  w_algorithms 10 Hw Hname) as (_ & _ & _ & Hlast);
      [lia |].
    destruct (Hlast eq_refl) as (Hqueue & _). exact Hqueue.
Defined.

(** ** Late callbacks and the running score *)

(** X21. A callback queued on the last question of one session that runs
    after another category was selected completes the new session at once:
    the new category and its questions are on the completion screen, with
    the answers and the recount of the old session, and the entry pushed
    carries the category and the number of questions of the old one. *)
Theorem late_completion_hits_new_session
        (w : World) (p : Pending) (rest : list Pending)
        (bank : Bank) (c' : string) (qs' : list Question) (now : string) :
  timeouts w = p :: rest ->
  ~ currentQuestionIndex (render p) < Z.of_nat (List.length (quizData (render p))) - 1 ->
  allQuizData (ui w) = Some bank ->
  lookup bank c' = Some qs' ->
  let w' := fire now (step w (PressCategory c')) in
  selectedCategory (ui w') = Some c' /\
  quizData (ui w') = qs' /\
  isQuizCompleted (ui w') = true /\
  answers (ui w') = answers (render p) ++ [index p] /\
  score (ui w') = count_matching (quizData (render p)) (answers (ui w')) /\
  scores w' =
    scores w ++
    [ScoreRecord.mk (selectedCategory (render p)) (score (ui w'))
                    (Z.of_nat (List.length (quizData (render p)))) now].
Proof.
  intros Hq Hlast Hb Hl w'. subst w'.
  simpl step. unfold handleCategorySelect. rewrite Hb, Hl.
  erewrite fire_cons by (simpl; exact Hq).
  rewrite settle_last by exact Hlast.
  simpl. rewrite finalScore_count_matching. auto 10.
Qed.

Lemma late_completion_hits_new_session_witness :
  timeouts (step w_general_pressed PressBack) =
    [mkPending 1 (ui (run [PressCategory "General"] (initialWorld sampleBank)))] /\
  lookup sampleBank "Algorithms" = Some [q_stack; q_sort] /\
  screen (ui (fire "t" (step (step w_general_pressed PressBack)
                             (PressCategory "Algorithms")))) =
  CompletedScreen (Some "Algorithms") 1 2 (PctFinite 1 2).
Proof.
  split; [reflexivity |].
  split; [reflexivity |].
  destruct (late_completion_hits_new_session
              (step w_general_pressed PressBack)
              (mkPending 1 (ui (run [PressCategory "General"] (initialWorld sampleBank))))
              [] sampleBank "Algorithms" [q_stack; q_sort] "t" eq_refl)
    as (Hsel & Hquiz & Hdone & _ & Hscore & _).
  - intros Hlt. vm_compute in Hlt. discriminate Hlt.
  - reflexivity.
  - reflexivity.
  - unfold screen. rewrite Hsel, Hquiz, Hdone, Hscore. reflexivity.
Defined.


